(** * envoy-hck: the time-stream session and the health toggle

    A shallow embedding of [main.go] (the mTLS server) and of its
    standalone sibling (the second [main.go], without TLS), and the
    properties of the specification proved about them.

    The Go code is modelled by explicit state passing.  A value of type
    [Go A] is a piece of Go code that runs on the process state [World]
    and yields an [A].

    - The [for { select { ... } }] loop of [StreamTime] blocks on its
      environment, so a call is a machine that is resumed once per
      wake-up of the [select]; which of the two cases the [select] took,
      the time received and the answer of [stream.Send] come with the
      wake-up.
    - The [/toggle-health] handler is a machine with one program point
      per statement, so that requests served at the same time can be
      interleaved statement by statement; [mu.Lock()] cannot move while
      [mu] is held.
    - [main] is run against a record of what the machine answers to the
      calls that reach outside the process.  From its [go] statement on
      it is two goroutines, which take their turns statement by
      statement in an order the runtime chooses.
    - Several calls of [StreamTime] in one process share its tickers and
      its log, and each has its own stream.

    The formatting of a time, [t.Format(time.RFC3339)], is a parameter
    [Format_RFC3339] of the development. *)

From Stdlib Require Import ZArith List Bool Ascii String Lia.
From stdpp Require Import base option list gmap strings pretty.

Open Scope Z_scope.

(** ** Library types the program uses *)

(** [time.Duration]: an int64 count of nanoseconds. *)
Definition Duration := Z.
Definition Nanosecond : Duration := 1.
Definition Second : Duration := 1000000000 * Nanosecond.

(** A Go [error], represented by the text [err.Error()] returns, which is
    all the program ever does with one (it prints it with [%v]).  A nil
    error is [None]. *)
Definition error := string.

(** [google.golang.org/grpc/codes]. *)
Inductive Code :=
| OK | Canceled | Unknown | InvalidArgument | DeadlineExceeded | NotFound
| AlreadyExists | PermissionDenied | ResourceExhausted | FailedPrecondition
| Aborted | OutOfRange | Unimplemented | Internal | Unavailable | DataLoss
| Unauthenticated.

(** The error value built by [status.Errorf(c, format, args...)]. *)
Record Status := { code : Code; message : string }.

Definition status_Errorf (c : Code) (msg : string) : Status :=
  {| code := c; message := msg |}.

(** [grpc_health_v1.HealthCheckResponse_ServingStatus]. *)
Inductive ServingStatus := UNKNOWN | SERVING | NOT_SERVING | SERVICE_UNKNOWN.

(** [pb.TimeResponse]: the TimeEvent of the specification. *)
Record TimeResponse := { CurrentTime : string }.

(** A [time.Ticker] held by the runtime. *)
Record Ticker := { period : Duration; ticking : bool }.

(** ** The process state *)

(** What the code below reads and writes: the lines printed through
    package [log] (oldest first, without the date prefix), the tickers
    created so far (a ticker's handle is its index), the calls made to
    [stream.Send] with their results, the package variables [mu]
    ([true] while the mutex is held) and [isHealthy], and the status map
    of the [healthServer]. *)
Record World := {
  logged : list string;
  tickers : list Ticker;
  sends : list (TimeResponse * option error);
  mu : bool;
  isHealthy : bool;
  statusMap : gmap string ServingStatus;
}.

Definition set_logged (f : list string → list string) (w : World) : World :=
  {| logged := f (logged w); tickers := tickers w; sends := sends w;
     mu := mu w; isHealthy := isHealthy w; statusMap := statusMap w |}.
Definition set_tickers (f : list Ticker → list Ticker) (w : World) : World :=
  {| logged := logged w; tickers := f (tickers w); sends := sends w;
     mu := mu w; isHealthy := isHealthy w; statusMap := statusMap w |}.
Definition set_sends
    (f : list (TimeResponse * option error) → list (TimeResponse * option error))
    (w : World) : World :=
  {| logged := logged w; tickers := tickers w; sends := f (sends w);
     mu := mu w; isHealthy := isHealthy w; statusMap := statusMap w |}.
Definition set_mu (b : bool) (w : World) : World :=
  {| logged := logged w; tickers := tickers w; sends := sends w;
     mu := b; isHealthy := isHealthy w; statusMap := statusMap w |}.
Definition set_isHealthy (b : bool) (w : World) : World :=
  {| logged := logged w; tickers := tickers w; sends := sends w;
     mu := mu w; isHealthy := b; statusMap := statusMap w |}.
Definition set_statusMap
    (f : gmap string ServingStatus → gmap string ServingStatus) (w : World) : World :=
  {| logged := logged w; tickers := tickers w; sends := sends w;
     mu := mu w; isHealthy := isHealthy w; statusMap := f (statusMap w) |}.

(** ** Go code as state passing *)

Definition Go (A : Type) : Type := World → A * World.

#[global] Instance Go_ret : MRet Go := λ A (a : A) w, (a, w).
#[global] Instance Go_bind : MBind Go :=
  λ A B (f : A → Go B) (m : Go A) w, let '(a, w') := m w in f a w'.

Definition exec {A} (m : Go A) (w : World) : World := snd (m w).

(** [log.Println(s)] and [log.Printf(format, args...)] once formatted. *)
Definition log_Println (s : string) : Go unit :=
  λ w, (tt, set_logged (λ l, l ++ [s]) w).
Definition log_Printf (s : string) : Go unit := log_Println s.

(** [time.NewTicker(d)]: panics when [d <= 0] ([None]); otherwise starts
    a ticker and returns its handle. *)
Definition time_NewTicker (d : Duration) : Go (option nat) :=
  λ w, if d <=? 0 then (None, w)
       else (Some (length (tickers w)),
             set_tickers (λ l, l ++ [{| period := d; ticking := true |}]) w).

(** [ticker.Stop()]: turns the ticker off. *)
Definition Ticker_Stop (tk : nat) : Go unit :=
  λ w, (tt, set_tickers
              (alter (λ t, {| period := period t; ticking := false |}) tk) w).

(** [stream.Send(m)]: the transport answers [r] (nil or an error); the
    call is recorded with its answer. *)
Definition stream_Send (m : TimeResponse) (r : option error) : Go (option error) :=
  λ w, (r, set_sends (λ l, l ++ [(m, r)]) w).

(** The tickers that are still running. *)
Definition ticking_count (l : list Ticker) : nat :=
  length (filter (λ t, ticking t = true) l).

(** The messages the transport accepted, in the order of the calls. *)
Definition written (w : World) : list TimeResponse :=
  omap (λ c, match c.2 with None => Some c.1 | Some _ => None end) (sends w).

(** [healthServer.SetServingStatus(service, status)] and the [Check] RPC
    the registered health service answers: both act on the status map in
    one step, under the health server's own lock. *)
Definition healthServer_SetServingStatus (service : string) (s : ServingStatus)
    : Go unit :=
  λ w, (tt, set_statusMap (<[service := s]>) w).

Definition healthServer_Check (service : string) : Go (ServingStatus + Status) :=
  λ w, (match statusMap w !! service with
        | Some s => inl s
        | None => inr (status_Errorf NotFound "unknown service")
        end, w).

(** The line feed, the ["\n"] of a Go string literal. *)
Definition LF : string := String "010"%char "".

(** ** What wakes a blocked [StreamTime], and where a call of it stands *)

(** One wake-up of the [select]: either [stream.Context().Done()] was
    chosen, or a time [t] was received from [ticker.C]; in the second
    case [send] is what [stream.Send] then answers. *)
Inductive Wake (Time : Type) :=
| ctx_Done
| ticker_C (t : Time) (send : option error).
Arguments ctx_Done {Time}.
Arguments ticker_C {Time} t send.

Inductive Call :=
| Select (ticker : nat)          (* blocked in the [select], holding [ticker] *)
| Return (err : option Status)   (* [StreamTime] has returned [err] *)
| Panic.                         (* unwound by a run-time panic *)

(** Program points of the [/toggle-health] handler, one per statement. *)
Inductive HandlerPc :=
| at_Lock                       (* mu.Lock(); defer mu.Unlock() *)
| at_flip                       (* isHealthy = !isHealthy *)
| at_if                         (* if isHealthy *)
| at_SERVING                    (* SetServingStatus("", SERVING); "HEALTHY" *)
| at_NOT_SERVING                (* SetServingStatus("", NOT_SERVING); "UNHEALTHY" *)
| at_Printf (statusString : string)    (* log.Printf(...) *)
| at_Fprintf (statusString : string)   (* fmt.Fprintf(w, ...) *)
| at_Unlock (body : string)     (* the deferred mu.Unlock() *)
| served (body : string).       (* returned; [body] was written to [w] *)

(** ** Goroutines at start-up *)

(** What a goroutine has still to do: it is blocked for good in a call
    that serves, or it is about to end the process with [os.Exit(code)],
    or it runs one statement, which changes the state as [effect] says,
    and goes on with [next]. *)
Inductive Thread :=
| Blocks
| Exits (code : Z)
| Runs (next : World → Thread) (effect : World → World).

(** The statement [m], then [rest]. *)
Definition stmt (m : Go unit) (rest : Thread) : Thread :=
  Runs (λ _, rest) (exec m).

(** A call that serves until it fails, such as [s.Serve(lis)] and
    [http.ListenAndServe(addr, nil)], with the [if err != nil] on its
    result: when the machine answers [None] the call never returns, and
    when it answers an error the goroutine goes on with [on_err]. *)
Definition serve_call (r : option error) (on_err : error → Thread) : Thread :=
  Runs (λ _, match r with Some err => on_err err | None => Blocks end) (λ w, w).

(** [log.Fatalf(...)] in a goroutine: it prints, and then it calls
    [os.Exit(1)]; the other goroutine may run in between. *)
Definition thread_Fatalf (s : string) : Thread :=
  stmt (log_Printf s) (Exits 1).

(** Whose turn it is: the goroutine of [main], or the one [main] started
    with [go]. *)
Inductive Turn := turn_main | turn_go.

(** The process from the [go] statement of [main] on: its state, what
    the two goroutines have still to do, and the exit status once one of
    them has ended the process. *)
Record Startup := {
  up_world : World;
  up_main : Thread;
  up_go : Thread;
  up_exit : option Z;
}.

Definition Thread_step (t : Thread) (w : World) : Thread * World * option Z :=
  match t with
  | Runs next effect => (next w, effect w, None)
  | Exits code => (t, w, Some code)
  | Blocks => (t, w, None)
  end.

(** One turn.  Nothing runs once the process has exited, and a turn
    given to a blocked goroutine changes nothing. *)
Definition Startup_step (st : Startup) (turn : Turn) : Startup :=
  match up_exit st with
  | Some _ => st
  | None =>
      match turn with
      | turn_main =>
          let '(t, w, e) := Thread_step (up_main st) (up_world st) in
          {| up_world := w; up_main := t; up_go := up_go st; up_exit := e |}
      | turn_go =>
          let '(t, w, e) := Thread_step (up_go st) (up_world st) in
          {| up_world := w; up_main := up_main st; up_go := t; up_exit := e |}
      end
  end.

(** The two goroutines take their turns as the schedule says; when the
    schedule is used up, each of them runs on until it is blocked or
    the process has exited.  No goroutine here has more than four
    statements. *)
Definition Startup_run (st : Startup) (sched : list Turn) : Startup :=
  foldl Startup_step st
    (sched ++ replicate 4 turn_main ++ replicate 4 turn_go).

(** * The mTLS server ([main.go]) *)

Module Mtls.
Section Server.
Context {Time : Type}.
(** [t.Format(time.RFC3339)]. *)
Context (Format_RFC3339 : Time → string).

(** [StreamTime], up to its first [select]. *)
Definition StreamTime_enter : Go Call :=
  log_Println "StreamTime request received" ;;
  ticker ← time_NewTicker (2 * Second) ;
  match ticker with
  | None => mret Panic
  | Some ticker => mret (Select ticker)   (* defer ticker.Stop() *)
  end.

(** One turn of the loop, from the wake-up of the [select] until the
    next [select] or the return; a return runs the deferred
    [ticker.Stop()]. *)
Definition StreamTime_wake (ticker : nat) (ev : Wake Time) : Go Call :=
  match ev with
  | ctx_Done =>
      log_Println "Client disconnected" ;;
      Ticker_Stop ticker ;;
      mret (Return None)
  | ticker_C t send =>
      err ← stream_Send {| CurrentTime := Format_RFC3339 t |} send ;
      match err with
      | Some err =>
          log_Printf ("Error sending time: " +:+ err) ;;
          Ticker_Stop ticker ;;
          mret (Return (Some (status_Errorf Internal
                                ("failed to send time: " +:+ err))))
      | None =>
          log_Printf ("Sent time: " +:+ Format_RFC3339 t) ;;
          mret (Select ticker)
      end
  end.

(** A call that has returned runs no more code. *)
Definition StreamTime_step (c : Call) (ev : Wake Time) : Go Call :=
  match c with
  | Select ticker => StreamTime_wake ticker ev
  | Return _ | Panic => mret c
  end.

Fixpoint StreamTime_run (c : Call) (evs : list (Wake Time)) : Go Call :=
  match evs with
  | [] => mret c
  | ev :: evs => c' ← StreamTime_step c ev ; StreamTime_run c' evs
  end.

(** [StreamTime] on the wake-ups [evs]. *)
Definition StreamTime (evs : list (Wake Time)) : Go Call :=
  c ← StreamTime_enter ; StreamTime_run c evs.

(** *** The [/toggle-health] handler *)

(** One statement of the handler.  [None]: the request cannot move,
    because it waits for [mu] or because it has been served.
    [mu.Unlock()] is only ever reached by the request that holds
    [mu]. *)
Definition handler_step (pc : HandlerPc) (w : World) : option (HandlerPc * World) :=
  match pc with
  | at_Lock =>
      if mu w then None else Some (at_flip, set_mu true w)
  | at_flip =>
      Some (at_if, set_isHealthy (negb (isHealthy w)) w)
  | at_if =>
      Some (if isHealthy w then at_SERVING else at_NOT_SERVING, w)
  | at_SERVING =>
      Some (at_Printf "HEALTHY",
            exec (healthServer_SetServingStatus "" SERVING) w)
  | at_NOT_SERVING =>
      Some (at_Printf "UNHEALTHY",
            exec (healthServer_SetServingStatus "" NOT_SERVING) w)
  | at_Printf statusString =>
      Some (at_Fprintf statusString,
            exec (log_Printf ("Health status toggled to: " +:+ statusString)) w)
  | at_Fprintf statusString =>
      Some (at_Unlock ("Health status is now " +:+ statusString +:+ LF), w)
  | at_Unlock body =>
      Some (served body, set_mu false w)
  | served _ => None
  end.

(** The handler run on its own for at most [n] statements. *)
Fixpoint handler_run (n : nat) (pc : HandlerPc) (w : World) : HandlerPc * World :=
  match n with
  | O => (pc, w)
  | S n =>
      match handler_step pc w with
      | Some (pc', w') => handler_run n pc' w'
      | None => (pc, w)
      end
  end.

(** One request to [/toggle-health] served from start to end with no
    other request in between: the response body and the new state, or
    [None] when the request never gets [mu]. *)
Definition toggle_health (w : World) : option (string * World) :=
  match handler_run 7 at_Lock w with
  | (served body, w') => Some (body, w')
  | _ => None
  end.

(** [n] requests to [/toggle-health], one after the other; the bodies
    are returned latest first. *)
Fixpoint toggles (n : nat) (w : World) : option (list string * World) :=
  match n with
  | O => Some ([], w)
  | S n =>
      match toggles n w with
      | Some (bodies, w') =>
          match toggle_health w' with
          | Some (body, w'') => Some (body :: bodies, w'')
          | None => None
          end
      | None => None
      end
  end.

(** *** Requests in flight *)

(** A request being served in its own goroutine: a call of the
    handler, or a health [Check] whose reply is [None] until the
    health service has answered. *)
Inductive Request :=
| http_toggle (pc : HandlerPc)
| grpc_Check (service : string) (reply : option (ServingStatus + Status)).

Definition request_step (r : Request) (w : World) : option (Request * World) :=
  match r with
  | http_toggle pc =>
      match handler_step pc w with
      | Some (pc', w') => Some (http_toggle pc', w')
      | None => None
      end
  | grpc_Check service None =>
      let '(reply, w') := healthServer_Check service w in
      Some (grpc_Check service (Some reply), w')
  | grpc_Check _ (Some _) => None
  end.

(** The running server: the process state, the requests in flight and
    one call of [StreamTime]. *)
Record Server := {
  world : World;
  requests : list Request;
  stream_call : Call;
}.

(** What the scheduler does next: let request [i] run one statement,
    or wake the [select] of the [StreamTime] call. *)
Inductive Sched :=
| run_request (i : nat)
| wake (ev : Wake Time).

Definition Server_step (srv : Server) (s : Sched) : Server :=
  match s with
  | run_request i =>
      match requests srv !! i with
      | Some r =>
          match request_step r (world srv) with
          | Some (r', w') =>
              {| world := w'; requests := <[i := r']> (requests srv);
                 stream_call := stream_call srv |}
          | None => srv
          end
      | None => srv
      end
  | wake ev =>
      let '(c, w') := StreamTime_step (stream_call srv) ev (world srv) in
      {| world := w'; requests := requests srv; stream_call := c |}
  end.

Definition Server_run (srv : Server) (sched : list Sched) : Server :=
  foldl Server_step srv sched.

End Server.

(** *** [main]: start-up *)

(** A certificate, and [tls.ClientAuthType]. *)
Definition Certificate := string.
Inductive ClientAuthType :=
| NoClientCert | RequestClientCert | RequireAnyClientCert
| VerifyClientCertIfGiven | RequireAndVerifyClientCert.

Record tls_Config := {
  Certificates : list Certificate;
  ClientCAs : list Certificate;
  ClientAuth : ClientAuthType;
}.

(** What the machine answers to [main]: the result of each call that
    reaches outside the process.  [host_Serve] and
    [host_ListenAndServe] are [None] while the server they start keeps
    serving: these calls return only with an error.  [host_PEM] gives
    the certificates found in PEM data, and [host_NewServer] the
    status map of a new health server.  [host_sched] is the order in
    which the runtime lets the goroutine of [main] and the one it
    starts take their turns. *)
Record Host := {
  host_LoadX509KeyPair : Certificate + error;
  host_ReadFile : string + error;
  host_PEM : string → list Certificate;
  host_Listen : string + error;
  host_NewServer : gmap string ServingStatus;
  host_Serve : option error;
  host_ListenAndServe : option error;
  host_sched : list Turn;
}.

(** How [main] ends: the process exits, or it stays blocked in
    [http.ListenAndServe] with both servers up, the gRPC server using
    [config]. *)
Inductive Main :=
| os_Exit (code : Z)
| serving (config : tls_Config).

(** [health.NewServer()]: the status map starts as the library makes
    it. *)
Definition health_NewServer (h : Host) : Go unit :=
  λ w, (tt, set_statusMap (λ _, host_NewServer h) w).

(** [log.Fatalf]: print, then [os.Exit(1)]. *)
Definition log_Fatalf (s : string) : Go Main :=
  log_Printf s ;; mret (os_Exit 1).

(** [pool.AppendCertsFromPEM(pem)]: the new pool, and whether a
    certificate was found. *)
Definition AppendCertsFromPEM (h : Host) (pool : list Certificate) (pem : string)
    : list Certificate * bool :=
  (pool ++ host_PEM h pem, bool_decide (host_PEM h pem ≠ [])).

(** The process state when [main] starts: the package variables hold
    their initial values. *)
Definition World_init : World :=
  {| logged := []; tickers := []; sends := [];
     mu := false; isHealthy := true; statusMap := ∅ |}.

(** [main].  Building the gRPC server and registering the services and
    the handler change nothing of the process state above.  From the
    [go] statement on, two goroutines run: the one started there, and
    [main] itself with the rest of its statements. *)
Definition main (h : Host) : Go Main :=
  match host_LoadX509KeyPair h with
  | inr err => log_Fatalf ("failed to load server cert: " +:+ err)
  | inl serverCert =>
  match host_ReadFile h with
  | inr err => log_Fatalf ("failed to read ca cert: " +:+ err)
  | inl caCert =>
  let caCertPool := [] in
  let '(caCertPool, _) := AppendCertsFromPEM h caCertPool caCert in
  let tlsConfig :=
    {| Certificates := [serverCert];
       ClientCAs := caCertPool;
       ClientAuth := RequireAndVerifyClientCert |} in
  match host_Listen h with
  | inr err => log_Fatalf ("failed to listen: " +:+ err)
  | inl lis =>
  health_NewServer h ;;
  healthServer_SetServingStatus "" SERVING ;;
  ((λ w,
    let up :=
      Startup_run
        {| up_world := w;
           up_go :=
             stmt (log_Println ("gRPC server with mTLS listening at " +:+ lis))
               (serve_call (host_Serve h)
                  (λ err, thread_Fatalf ("failed to serve: " +:+ err)));
           up_main :=
             stmt (log_Println "Health toggle server listening at :8081")
               (serve_call (host_ListenAndServe h)
                  (λ err, thread_Fatalf ("failed to start HTTP server: " +:+ err)));
           up_exit := None |}
        (host_sched h) in
    (match up_exit up with
     | Some code => os_Exit code
     | None => serving tlsConfig
     end, up_world up)) : Go Main)
  end end end.

End Mtls.

(** * The standalone server (the second [main.go], without TLS) *)

Module Standalone.
Section Server.
Context {Time : Type}.
Context (Format_RFC3339 : Time → string).

(** [StreamTime], up to its first [select].  The comment above the
    function speaks of ten seconds; the ticker is made with
    [1 * time.Second]. *)
Definition StreamTime_enter : Go Call :=
  log_Println "StreamTime request received" ;;
  ticker ← time_NewTicker (1 * Second) ;
  match ticker with
  | None => mret Panic
  | Some ticker => mret (Select ticker)   (* defer ticker.Stop() *)
  end.

Definition StreamTime_wake (ticker : nat) (ev : Wake Time) : Go Call :=
  match ev with
  | ctx_Done =>
      log_Println "Client disconnected" ;;
      Ticker_Stop ticker ;;
      mret (Return None)
  | ticker_C t send =>
      err ← stream_Send {| CurrentTime := Format_RFC3339 t |} send ;
      match err with
      | Some err =>
          log_Printf ("Error sending time: " +:+ err) ;;
          Ticker_Stop ticker ;;
          mret (Return (Some (status_Errorf Internal
                                ("failed to send time: " +:+ err))))
      | None =>
          log_Printf ("Sent time: " +:+ Format_RFC3339 t) ;;
          mret (Select ticker)
      end
  end.

Definition StreamTime_step (c : Call) (ev : Wake Time) : Go Call :=
  match c with
  | Select ticker => StreamTime_wake ticker ev
  | Return _ | Panic => mret c
  end.

Fixpoint StreamTime_run (c : Call) (evs : list (Wake Time)) : Go Call :=
  match evs with
  | [] => mret c
  | ev :: evs => c' ← StreamTime_step c ev ; StreamTime_run c' evs
  end.

Definition StreamTime (evs : list (Wake Time)) : Go Call :=
  c ← StreamTime_enter ; StreamTime_run c evs.

End Server.

(** *** The [/toggle-health] handler *)

(** One statement of the handler of the standalone server. *)
Definition handler_step (pc : HandlerPc) (w : World) : option (HandlerPc * World) :=
  match pc with
  | at_Lock =>
      if mu w then None else Some (at_flip, set_mu true w)
  | at_flip =>
      Some (at_if, set_isHealthy (negb (isHealthy w)) w)
  | at_if =>
      Some (if isHealthy w then at_SERVING else at_NOT_SERVING, w)
  | at_SERVING =>
      Some (at_Printf "HEALTHY",
            exec (healthServer_SetServingStatus "" SERVING) w)
  | at_NOT_SERVING =>
      Some (at_Printf "UNHEALTHY",
            exec (healthServer_SetServingStatus "" NOT_SERVING) w)
  | at_Printf statusString =>
      Some (at_Fprintf statusString,
            exec (log_Printf ("Health status toggled to: " +:+ statusString)) w)
  | at_Fprintf statusString =>
      Some (at_Unlock ("Health status is now " +:+ statusString +:+ LF), w)
  | at_Unlock body =>
      Some (served body, set_mu false w)
  | served _ => None
  end.

Fixpoint handler_run (n : nat) (pc : HandlerPc) (w : World) : HandlerPc * World :=
  match n with
  | O => (pc, w)
  | S n =>
      match handler_step pc w with
      | Some (pc', w') => handler_run n pc' w'
      | None => (pc, w)
      end
  end.

Definition toggle_health (w : World) : option (string * World) :=
  match handler_run 7 at_Lock w with
  | (served body, w') => Some (body, w')
  | _ => None
  end.

Fixpoint toggles (n : nat) (w : World) : option (list string * World) :=
  match n with
  | O => Some ([], w)
  | S n =>
      match toggles n w with
      | Some (bodies, w') =>
          match toggle_health w' with
          | Some (body, w'') => Some (body :: bodies, w'')
          | None => None
          end
      | None => None
      end
  end.

(** *** [main]: start-up *)

(** What [flag.Parse()] makes of the command line: the values given
    for [-grpc-port] and [-http-port], [None] for a flag that is not
    given; or, for a command line the flag package rejects, the status
    with which it ends the process. *)
Inductive CommandLine :=
| flags (grpc_port http_port : option Z)
| flag_exit (code : Z).

(** What the machine answers to [main].  The two calls that bind an
    address are asked with that address.  [host_sched] is the order in
    which the two goroutines take their turns. *)
Record Host := {
  host_flag_Parse : CommandLine;
  host_Listen : string → string + error;
  host_NewServer : gmap string ServingStatus;
  host_Serve : option error;
  host_ListenAndServe : string → option error;
  host_sched : list Turn;
}.

(** How [main] ends: the process exits, or it stays blocked in
    [http.ListenAndServe], the gRPC server listening at [lis] and the
    HTTP server at [httpAddr]. *)
Inductive Main :=
| os_Exit (code : Z)
| serving (lis httpAddr : string).

(** The value of a flag made with [flag.Int(name, value, usage)], once
    the command line is parsed. *)
Definition flag_Int (given : option Z) (value : Z) : Z := default value given.

(** [fmt.Sprintf(":%d", port)]. *)
Definition Sprintf_port (port : Z) : string := ":" +:+ pretty port.

Definition health_NewServer (h : Host) : Go unit :=
  λ w, (tt, set_statusMap (λ _, host_NewServer h) w).

Definition log_Fatalf (s : string) : Go Main :=
  log_Printf s ;; mret (os_Exit 1).

Definition World_init : World :=
  {| logged := []; tickers := []; sends := [];
     mu := false; isHealthy := true; statusMap := ∅ |}.

(** [main], with its two goroutines from the [go] statement on, as for
    the mTLS server. *)
Definition main (h : Host) : Go Main :=
  match host_flag_Parse h with
  | flag_exit code => mret (os_Exit code)
  | flags grpc_port http_port =>
  let grpcPort := flag_Int grpc_port 50051 in
  let httpPort := flag_Int http_port 8081 in
  let grpcAddr := Sprintf_port grpcPort in
  match host_Listen h grpcAddr with
  | inr err => log_Fatalf ("failed to listen: " +:+ err)
  | inl lis =>
  health_NewServer h ;;
  healthServer_SetServingStatus "" SERVING ;;
  ((λ w,
    let httpAddr := Sprintf_port httpPort in
    let up :=
      Startup_run
        {| up_world := w;
           up_go :=
             stmt (log_Println ("gRPC server listening at " +:+ lis))
               (serve_call (host_Serve h)
                  (λ err, thread_Fatalf ("failed to serve: " +:+ err)));
           up_main :=
             stmt (log_Printf ("Health toggle server listening at " +:+ httpAddr))
               (serve_call (host_ListenAndServe h httpAddr)
                  (λ err, thread_Fatalf ("failed to start HTTP server: " +:+ err)));
           up_exit := None |}
        (host_sched h) in
    (match up_exit up with
     | Some code => os_Exit code
     | None => serving lis httpAddr
     end, up_world up)) : Go Main)
  end end.

End Standalone.

(** * Words for the statements *)

(** The wake-ups a call of [StreamTime] gets to see: those up to and
    including the first one that makes it return, a cancellation or a
    tick whose send fails. *)
Fixpoint taken {Time} (evs : list (Wake Time)) : list (Wake Time) :=
  match evs with
  | [] => []
  | ticker_C t None :: evs => ticker_C t None :: taken evs
  | ev :: _ => [ev]
  end.

(** The ticks among wake-ups, oldest first, each with the answer of the
    send made for it. *)
Definition ticks {Time} (evs : list (Wake Time)) : list (Time * option error) :=
  omap (λ ev, match ev with
              | ticker_C t r => Some (t, r)
              | ctx_Done => None
              end) evs.

(** The call [stream.Send] made for a tick. *)
Definition Send_of {Time} (Format_RFC3339 : Time → string)
    (tick : Time * option error) : TimeResponse * option error :=
  ({| CurrentTime := Format_RFC3339 tick.1 |}, tick.2).

(** The times of the ticks whose message the transport accepted. *)
Definition accepted {Time} (l : list (Time * option error)) : list Time :=
  omap (λ tick, match tick.2 with None => Some tick.1 | Some _ => None end) l.

(** [ticker.Stop()] on the ticker itself. *)
Definition stopped (t : Ticker) : Ticker :=
  {| period := period t; ticking := false |}.

(** What [StreamTime] returns when the wake-up [ev] is the last it sees;
    [None] when it does not return. *)
Definition exit_of {Time} (ev : option (Wake Time)) : option (option Status) :=
  match ev with
  | Some ctx_Done => Some None
  | Some (ticker_C _ (Some err)) =>
      Some (Some {| code := Internal; message := "failed to send time: " +:+ err |})
  | Some (ticker_C _ None) | None => None
  end.

(** [strings.Fields(s)]: the words of [s], which is [s] split at white
    space. *)
Definition strings_Fields (s : string) : list string := String.words s.

(** Whether [word] is one of the words of [s]. *)
Definition has_word (s word : string) : bool :=
  bool_decide (word ∈ strings_Fields s).

(** The state a served toggle request leaves behind. *)
Definition toggled (w : World) : World :=
  let statusString := if negb (isHealthy w) then "HEALTHY" else "UNHEALTHY" in
  {| logged := logged w ++ ["Health status toggled to: " +:+ statusString];
     tickers := tickers w; sends := sends w;
     mu := false;
     isHealthy := negb (isHealthy w);
     statusMap := <["" := if negb (isHealthy w) then SERVING else NOT_SERVING]>
                    (statusMap w) |}.

(** A goroutine of [main] that prints [line] and then makes a call that
    serves, answered [r], ending the process with [diag] and the error
    when the call fails: what it has still to do after [k] turns. *)
Definition thread_at (line : string) (r : option error) (diag : string)
    (k : nat) : Thread :=
  match k with
  | 0%nat => stmt (log_Println line)
               (serve_call r (λ err, thread_Fatalf (diag +:+ err)))
  | 1%nat => serve_call r (λ err, thread_Fatalf (diag +:+ err))
  | 2%nat => match r with
             | Some err => thread_Fatalf (diag +:+ err)
             | None => Blocks
             end
  | _ => match r with Some _ => Exits 1 | None => Blocks end
  end.

(** What it has printed by then. *)
Definition lines_at (line : string) (r : option error) (diag : string)
    (k : nat) : list string :=
  match k with
  | 0%nat => []
  | 1%nat | 2%nat => [line]
  | _ => match r with Some err => [line; diag +:+ err] | None => [line] end
  end.

(** The start-up of two such goroutines from the state [w0], somewhere
    on its way: the state is [w0] with the lines of both goroutines
    printed, in some order, and the process has exited only with status
    1 and only from a goroutine whose call failed and that has printed
    its diagnostic. *)
Definition up_inv (a1 : string) (r1 : option error) (d1 : string)
    (a2 : string) (r2 : option error) (d2 : string)
    (w0 : World) (st : Startup) : Prop :=
  ∃ (k1 k2 : nat) (lines : list string),
    up_main st = thread_at a1 r1 d1 k1
    ∧ up_go st = thread_at a2 r2 d2 k2
    ∧ (k1 ≤ 3)%nat ∧ (k2 ≤ 3)%nat
    ∧ up_world st = set_logged (λ l, l ++ lines) w0
    ∧ lines ≡ₚ lines_at a1 r1 d1 k1 ++ lines_at a2 r2 d2 k2
    ∧ match up_exit st with
      | None => True
      | Some code =>
          code = 1
          ∧ ((k1 = 3%nat ∧ is_Some r1) ∨ (k2 = 3%nat ∧ is_Some r2))
      end.

(** A machine on which every start-up call succeeds, and on which
    [main] goes on to print its line before the goroutine it started
    gets to run. *)
Definition good_host : Mtls.Host :=
  {| Mtls.host_LoadX509KeyPair := inl "server certificate";
     Mtls.host_ReadFile := inl "-----BEGIN CERTIFICATE-----";
     Mtls.host_PEM := λ _, ["CA certificate"];
     Mtls.host_Listen := inl "[::]:50051";
     Mtls.host_NewServer := {["" := SERVING]};
     Mtls.host_Serve := None;
     Mtls.host_ListenAndServe := None;
     Mtls.host_sched := [turn_main; turn_go] |}.

(** A machine on which every start-up call succeeds, but [certs/ca.crt]
    holds no certificate: the file is read, and nothing in it parses.
    The goroutines take their turns as [sched] says. *)
Definition host_without_CA (sched : list Turn) : Mtls.Host :=
  {| Mtls.host_LoadX509KeyPair := inl "server certificate";
     Mtls.host_ReadFile := inl "not a certificate";
     Mtls.host_PEM := λ _, [];
     Mtls.host_Listen := inl "[::]:50051";
     Mtls.host_NewServer := {["" := SERVING]};
     Mtls.host_Serve := None;
     Mtls.host_ListenAndServe := None;
     Mtls.host_sched := sched |}.

(** The process state once [main] serves on [good_host]. *)
Definition World_serving : World := (Mtls.main good_host Mtls.World_init).2.

(** Whether a request stands between its [mu.Lock()] and the end of its
    deferred [mu.Unlock()]. *)
Definition in_critical (r : Mtls.Request) : bool :=
  match r with
  | Mtls.http_toggle (at_flip | at_if | at_SERVING | at_NOT_SERVING
                      | at_Printf _ | at_Fprintf _ | at_Unlock _) => true
  | Mtls.http_toggle (at_Lock | served _) => false
  | Mtls.grpc_Check _ _ => false
  end.

(** The number of requests of a pool that stand in that section. *)
Definition crit_count (l : list Mtls.Request) : nat :=
  length (filter (λ r, in_critical r = true) l).

(** A request that has not started. *)
Definition not_started (r : Mtls.Request) : Prop :=
  match r with
  | Mtls.http_toggle at_Lock => True
  | Mtls.grpc_Check _ None => True
  | _ => False
  end.

(** [isHealthy] and the status of the whole service say the same. *)
Definition agree (w : World) : Prop :=
  statusMap w !! "" = Some (if isHealthy w then SERVING else NOT_SERVING).

(** The reply of a [Check] of the whole service, when it has one, is
    SERVING or NOT_SERVING. *)
Definition reply_ok (r : Mtls.Request) : Prop :=
  match r with
  | Mtls.grpc_Check "" (Some reply) => reply = inl SERVING ∨ reply = inl NOT_SERVING
  | _ => True
  end.

(** What holds of the state while a toggle request stands at a given
    statement of its critical section: before the flip and after the
    status map is set, [isHealthy] and the map agree; in a branch of the
    [if], [isHealthy] is what the branch tested. *)
Definition at_pc (w : World) (r : Mtls.Request) : Prop :=
  match r with
  | Mtls.http_toggle (at_flip | at_Printf _ | at_Fprintf _ | at_Unlock _) =>
      agree w
  | Mtls.http_toggle at_SERVING => isHealthy w = true
  | Mtls.http_toggle at_NOT_SERVING => isHealthy w = false
  | _ => True
  end.

Definition status_ok (w : World) : Prop :=
  statusMap w !! "" = Some SERVING ∨ statusMap w !! "" = Some NOT_SERVING.

(** The invariant of the running server. *)
Definition Inv (srv : Mtls.Server) : Prop :=
  crit_count (Mtls.requests srv) = (if mu (Mtls.world srv) then 1 else 0)%nat
  ∧ Forall (λ r, in_critical r = true → at_pc (Mtls.world srv) r)
      (Mtls.requests srv)
  ∧ (mu (Mtls.world srv) = false → agree (Mtls.world srv))
  ∧ status_ok (Mtls.world srv)
  ∧ Forall reply_ok (Mtls.requests srv).

(** Register operations are serialised under [mu] along a schedule:
    whenever the scheduler serves a [Check], no toggle request holds
    [mu]. *)
Definition checks_wait_for_mu {Time} (F : Time → string)
    (srv : Mtls.Server) (sched : list (@Mtls.Sched Time)) : Prop :=
  ∀ n i service,
    sched !! n = Some (Mtls.run_request i) →
    Mtls.requests (Mtls.Server_run F srv (take n sched)) !! i
      = Some (Mtls.grpc_Check service None) →
    mu (Mtls.world (Mtls.Server_run F srv (take n sched))) = false.

(** A server with a session running, one toggle request and one check
    of the whole service accepted and not yet started. *)
Definition busy_server : Mtls.Server :=
  {| Mtls.world := (Mtls.StreamTime_enter World_serving).2;
     Mtls.requests := [Mtls.http_toggle at_Lock; Mtls.grpc_Check "" None];
     Mtls.stream_call := Select 0 |}.

(** A server with the same session running, no request, and the health
    toggled to NOT_SERVING before the session began. *)
Definition quiet_server : Mtls.Server :=
  {| Mtls.world := (Mtls.StreamTime_enter (toggled World_serving)).2;
     Mtls.requests := [];
     Mtls.stream_call := Select 0 |}.

(** Two process states that differ at most in the period of the last
    ticker: [wm] has the tickers [l0] and then one of two seconds, [ws]
    has [l0] and then one of one second, both ticking or both stopped. *)
Definition same_but_period (l0 : list Ticker) (wm ws : World) : Prop :=
  logged wm = logged ws ∧ sends wm = sends ws ∧ mu wm = mu ws
  ∧ isHealthy wm = isHealthy ws ∧ statusMap wm = statusMap ws
  ∧ ∃ b, tickers wm = l0 ++ [{| period := 2 * Second; ticking := b |}]
       ∧ tickers ws = l0 ++ [{| period := 1 * Second; ticking := b |}].

(** The wake-ups of the [StreamTime] call in a schedule. *)
Definition wakes {Time} (sched : list (@Mtls.Sched Time)) : list (Wake Time) :=
  omap (λ s, match s with
             | Mtls.wake ev => Some ev
             | Mtls.run_request _ => None
             end) sched.

(** What a [StreamTime] call shows of itself: where it stands, the calls
    of [stream.Send] made and the tickers. *)
Definition session_view (c : Call) (w : World)
    : Call * list (TimeResponse * option error) * list Ticker :=
  (c, sends w, tickers w).

(** A call that returns a value and an error has returned a nil
    error. *)
Definition succeeded {A} (r : A + error) : Prop :=
  match r with inl _ => True | inr _ => False end.

(** The body the handler writes for the new value of [isHealthy]. *)
Definition toggle_body (healthy : bool) : string :=
  "Health status is now " +:+ (if healthy then "HEALTHY" else "UNHEALTHY") +:+ LF.

(** A machine for the standalone server: no flag on the command line,
    both addresses free. *)
Definition standalone_host : Standalone.Host :=
  {| Standalone.host_flag_Parse := Standalone.flags None None;
     Standalone.host_Listen := λ addr, inl ("[::]" +:+ addr);
     Standalone.host_NewServer := {["" := SERVING]};
     Standalone.host_Serve := None;
     Standalone.host_ListenAndServe := λ _, None;
     Standalone.host_sched := [turn_main; turn_go] |}.

(** The line [StreamTime] prints when the wake-up [ev] is the last it
    sees and makes it return. *)
Definition exit_line {Time} (ev : option (Wake Time)) : list string :=
  match ev with
  | Some ctx_Done => ["Client disconnected"]
  | Some (ticker_C _ (Some err)) => ["Error sending time: " +:+ err]
  | Some (ticker_C _ None) | None => []
  end.

(** The requests a schedule lets run, in order. *)
Definition request_steps {Time} (sched : list (@Mtls.Sched Time)) : list nat :=
  omap (λ s, match s with
             | Mtls.run_request i => Some i
             | Mtls.wake _ => None
             end) sched.

(** What the health side of the server shows: the requests with where
    they stand and what they were answered, [mu], [isHealthy] and the
    status map. *)
Definition health_view (srv : Mtls.Server)
    : list Mtls.Request * bool * bool * gmap string ServingStatus :=
  (Mtls.requests srv, mu (Mtls.world srv), isHealthy (Mtls.world srv),
   statusMap (Mtls.world srv)).

(** The sum of a measure over a list. *)
Definition total {A} (f : A → nat) (l : list A) : nat :=
  sum_list (f <$> l).

(** The statements a request has still to run: seven for a toggle
    request that has not started, one for a check that is not
    answered. *)
Definition remaining (r : Mtls.Request) : nat :=
  match r with
  | Mtls.http_toggle at_Lock => 7
  | Mtls.http_toggle at_flip => 6
  | Mtls.http_toggle at_if => 5
  | Mtls.http_toggle (at_SERVING | at_NOT_SERVING) => 4
  | Mtls.http_toggle (at_Printf _) => 3
  | Mtls.http_toggle (at_Fprintf _) => 2
  | Mtls.http_toggle (at_Unlock _) => 1
  | Mtls.http_toggle (served _) => 0
  | Mtls.grpc_Check _ None => 1
  | Mtls.grpc_Check _ (Some _) => 0
  end.

(** A toggle request that is served, or a check that is answered. *)
Definition finished (r : Mtls.Request) : Prop := remaining r = 0%nat.

(** [mu] is held exactly when one request is in its critical section,
    and no second one is. *)
Definition lock_inv (srv : Mtls.Server) : Prop :=
  crit_count (Mtls.requests srv) = (if mu (Mtls.world srv) then 1 else 0)%nat.

(** Whether a toggle request has run its [isHealthy = !isHealthy], and
    whether it is served. *)
Definition flipped (r : Mtls.Request) : bool :=
  match r with
  | Mtls.http_toggle (at_if | at_SERVING | at_NOT_SERVING | at_Printf _
                      | at_Fprintf _ | at_Unlock _ | served _) => true
  | _ => false
  end.

Definition is_served (r : Mtls.Request) : bool :=
  match r with
  | Mtls.http_toggle (served _) => true
  | _ => false
  end.

(** The number of requests of a pool for which [p] holds. *)
Definition count_of (p : Mtls.Request → bool) (l : list Mtls.Request) : nat :=
  total (λ r, if p r then 1 else 0)%nat l.

(** What a toggle request has in hand, against the state: the status
    word and the body it has built name the present value of
    [isHealthy]; the body of a served request is one of the two
    bodies. *)
Definition body_ok (w : World) (r : Mtls.Request) : Prop :=
  match r with
  | Mtls.http_toggle (at_Printf s | at_Fprintf s) =>
      s = (if isHealthy w then "HEALTHY" else "UNHEALTHY")
  | Mtls.http_toggle (at_Unlock body) => body = toggle_body (isHealthy w)
  | Mtls.http_toggle (served body) =>
      body = toggle_body true ∨ body = toggle_body false
  | _ => True
  end.

(** The reply of a [Check] of a named service, when it has one, is what
    the state [w0] answers for that service. *)
Definition named_reply_ok (w0 : World) (r : Mtls.Request) : Prop :=
  match r with
  | Mtls.grpc_Check service (Some reply) =>
      service ≠ "" → reply = (healthServer_Check service w0).1
  | _ => True
  end.

(** ** Several calls of [StreamTime] in one process *)

(** A call of [StreamTime] with its own stream: where the call stands
    and the calls of [stream.Send] made on that stream.  The tickers and
    the log are those of the process. *)
Record Session := {
  call : Call;
  stream : list (TimeResponse * option error);
}.

(** The code [m] run by a call whose stream is [st]: while [m] runs, the
    sends of the state are those of that stream. *)
Definition on_stream {A} (st : list (TimeResponse * option error)) (m : Go A)
    (w : World) : A * list (TimeResponse * option error) * World :=
  let '(a, w') := m (set_sends (λ _, st) w) in
  (a, sends w', set_sends (λ _, sends w) w').

(** What happens next: the server accepts a new call of [StreamTime],
    which runs up to its first [select], or the [select] of call [k]
    wakes up. *)
Inductive SessionSched (Time : Type) :=
| accept_call
| wake_call (k : nat) (ev : Wake Time).
Arguments accept_call {Time}.
Arguments wake_call {Time} k ev.

Definition Sessions_step {Time} (F : Time → string)
    (st : list Session * World) (s : SessionSched Time) : list Session * World :=
  match s with
  | accept_call =>
      let '(c, sent, w') := on_stream [] Mtls.StreamTime_enter st.2 in
      (st.1 ++ [{| call := c; stream := sent |}], w')
  | wake_call k ev =>
      match st.1 !! k with
      | Some s =>
          let '(c, sent, w') :=
            on_stream (stream s) (Mtls.StreamTime_step F (call s) ev) st.2 in
          (<[k := {| call := c; stream := sent |}]> st.1, w')
      | None => st
      end
  end.

Definition Sessions_run {Time} (F : Time → string)
    (st : list Session * World) (sched : list (SessionSched Time))
    : list Session * World :=
  foldl (Sessions_step F) st sched.

(** The wake-ups of call [k] in a schedule. *)
Definition wakes_of {Time} (k : nat) (sched : list (SessionSched Time))
    : list (Wake Time) :=
  omap (λ s, match s with
             | wake_call j ev => if decide (j = k) then Some ev else None
             | accept_call => None
             end) sched.

(** One for a call that waits in its [select], none for a call that has
    returned. *)
Definition running (s : Session) : nat :=
  match call s with Select _ => 1 | _ => 0 end.

(** Two calls of [StreamTime] accepted one after the other by a server
    that has just started. *)
Definition two_calls : list Session * World :=
  Sessions_run (λ t : string, t) ([], World_serving) [accept_call; accept_call].

(** What holds of several calls and the tickers of the process, [base]
    tickers running apart from theirs: one ticker is running for each
    call that waits, it is the one the call holds, of period two
    seconds, and no two calls hold the same. *)
Definition sessions_inv (base : nat) (st : list Session * World) : Prop :=
  ticking_count (tickers st.2) = (base + total running st.1)%nat
  ∧ (∀ k s tk,
       st.1 !! k = Some s → call s = Select tk →
       tickers st.2 !! tk = Some {| period := 2 * Second; ticking := true |})
  ∧ (∀ k k' s s' tk,
       st.1 !! k = Some s → st.1 !! k' = Some s' →
       call s = Select tk → call s' = Select tk → k = k').

(** * Properties *)

(** ** The time-stream session *)

Section StreamTimeFacts.
Context {Time : Type} (F : Time → string).

Lemma Mtls_run_cons c ev evs w :
  Mtls.StreamTime_run F c (ev :: evs) w =
    Mtls.StreamTime_run F (Mtls.StreamTime_step F c ev w).1 evs
      (Mtls.StreamTime_step F c ev w).2.
Proof.
  cbn [Mtls.StreamTime_run]. unfold mbind, Go_bind.
  by destruct (Mtls.StreamTime_step F c ev w).
Qed.

Lemma Mtls_step_Done tk w :
  Mtls.StreamTime_step F (Select tk) ctx_Done w =
    (Return None,
     set_tickers (alter stopped tk)
       (set_logged (λ l, l ++ ["Client disconnected"]) w)).
Proof. reflexivity. Qed.

Lemma Mtls_step_fail tk t e w :
  Mtls.StreamTime_step F (Select tk) (ticker_C t (Some e)) w =
    (Return (Some (status_Errorf Internal ("failed to send time: " +:+ e))),
     set_tickers (alter stopped tk)
       (set_logged (λ l, l ++ ["Error sending time: " +:+ e])
          (set_sends (λ l, l ++ [Send_of F (t, Some e)]) w))).
Proof. reflexivity. Qed.

Lemma Mtls_step_sent tk t w :
  Mtls.StreamTime_step F (Select tk) (ticker_C t None) w =
    (Select tk,
     set_logged (λ l, l ++ ["Sent time: " +:+ F t])
       (set_sends (λ l, l ++ [Send_of F (t, None)]) w)).
Proof. reflexivity. Qed.

Lemma Mtls_step_returned c ev w :
  (∀ tk, c ≠ Select tk) → Mtls.StreamTime_step F c ev w = (c, w).
Proof. intros Hc. destruct c; [by destruct (Hc ticker)|done..]. Qed.

Lemma Mtls_run_returned c evs w :
  (∀ tk, c ≠ Select tk) → Mtls.StreamTime_run F c evs w = (c, w).
Proof.
  intros Hc. revert w. induction evs as [|ev evs IH]; intros w; [done|].
  rewrite Mtls_run_cons, Mtls_step_returned by done. apply IH.
Qed.

Lemma last_taken_cons (ev : Wake Time) evs :
  last (taken (ev :: evs)) =
    match ev with
    | ticker_C t None =>
        match last (taken evs) with Some x => Some x | None => Some ev end
    | _ => Some ev
    end.
Proof.
  destruct ev as [|t [e|]]; cbn [taken]; try done.
  destruct (taken evs) as [|x l] eqn:E; [done|].
  rewrite last_cons. by destruct (last (x :: l)).
Qed.

(** The whole effect of the loop from a [select]. *)
Lemma Mtls_run_Select tk evs w :
  let c := (Mtls.StreamTime_run F (Select tk) evs w).1 in
  let w' := (Mtls.StreamTime_run F (Select tk) evs w).2 in
  c = match exit_of (last (taken evs)) with
      | Some err => Return err
      | None => Select tk
      end
  ∧ sends w' = sends w ++ (Send_of F <$> ticks (taken evs))
  ∧ tickers w' = match exit_of (last (taken evs)) with
                 | Some _ => alter stopped tk (tickers w)
                 | None => tickers w
                 end
  ∧ mu w' = mu w ∧ isHealthy w' = isHealthy w ∧ statusMap w' = statusMap w.
Proof.
  revert w. induction evs as [|ev evs IH]; intros w.
  - cbn. by rewrite app_nil_r.
  - rewrite last_taken_cons. cbv zeta. rewrite Mtls_run_cons.
    destruct ev as [|t [e|]].
    + rewrite Mtls_step_Done, Mtls_run_returned by done. cbn.
      by rewrite app_nil_r.
    + rewrite Mtls_step_fail, Mtls_run_returned by done. done.
    + rewrite Mtls_step_sent.
      destruct (IH (set_logged (λ l, l ++ ["Sent time: " +:+ F t])
                      (set_sends (λ l, l ++ [Send_of F (t, None)]) w)))
        as (Hc & Hs & Ht & Hm & Hh & Hst).
      cbn [fst snd]. rewrite Hc, Hs, Ht, Hm, Hh, Hst. cbn.
      rewrite <- app_assoc.
      by destruct (last (taken evs)) as [[|t' [e'|]]|].
Qed.

Lemma Mtls_run_app c evs more w :
  Mtls.StreamTime_run F c (evs ++ more) w =
    Mtls.StreamTime_run F (Mtls.StreamTime_run F c evs w).1 more
      (Mtls.StreamTime_run F c evs w).2.
Proof.
  revert c w. induction evs as [|ev evs IH]; intros c w; [done|].
  rewrite <- app_comm_cons, !Mtls_run_cons. apply IH.
Qed.

Lemma Mtls_enter w :
  Mtls.StreamTime_enter w =
    (Select (length (tickers w)),
     set_tickers (λ l, l ++ [{| period := 2 * Second; ticking := true |}])
       (set_logged (λ l, l ++ ["StreamTime request received"]) w)).
Proof. reflexivity. Qed.

Lemma Mtls_StreamTime_unfold evs w :
  Mtls.StreamTime F evs w =
    Mtls.StreamTime_run F (Mtls.StreamTime_enter w).1 evs
      (Mtls.StreamTime_enter w).2.
Proof.
  unfold Mtls.StreamTime, mbind, Go_bind. by destruct (Mtls.StreamTime_enter w).
Qed.

Lemma ticking_count_snoc l t :
  ticking_count (l ++ [t]) =
    (if ticking t then S (ticking_count l) else ticking_count l).
Proof.
  unfold ticking_count. rewrite filter_app, length_app, filter_cons, filter_nil.
  destruct t as [d [|]]; cbn [ticking]; case_decide; cbn [length]; try done; lia.
Qed.

Lemma written_sends (l : list (Time * option error)) :
  omap (λ c : TimeResponse * option error,
          match c.2 with None => Some c.1 | Some _ => None end)
       (Send_of F <$> l)
  = (λ t, {| CurrentTime := F t |}) <$> accepted l.
Proof.
  induction l as [|[t [e|]] l IH]; [done|..].
  - rewrite fmap_cons. cbn [omap list_omap accepted]. apply IH.
  - rewrite fmap_cons. unfold accepted. cbn [omap list_omap].
    cbn [Send_of fst snd fmap list_fmap]. f_equal. apply IH.
Qed.

(** C1. [StreamTime] leaves in exactly two ways.  Of the wake-ups it is
    given, it sees those up to the first cancellation or failed send.
    When the last one it saw is the cancellation it has returned nil;
    when it is a tick whose send failed with [err] it has returned the
    status with code Internal built from [err]; in every other case it
    has not returned and waits in its [select].  It never panics. *)
Theorem C1_StreamTime_exits evs w :
  (Mtls.StreamTime F evs w).1 =
    match last (taken evs) with
    | Some ctx_Done => Return None
    | Some (ticker_C _ (Some err)) =>
        Return (Some {| code := Internal;
                        message := "failed to send time: " +:+ err |})
    | Some (ticker_C _ None) | None => Select (length (tickers w))
    end.
Proof.
  rewrite Mtls_StreamTime_unfold, Mtls_enter. cbn [fst snd].
  destruct (Mtls_run_Select (length (tickers w)) evs
              (set_tickers (λ l, l ++ [{| period := 2 * Second; ticking := true |}])
                 (set_logged (λ l, l ++ ["StreamTime request received"]) w)))
    as (Hc & _).
  rewrite Hc. by destruct (last (taken evs)) as [[|t [e|]]|].
Qed.

(** C3. A call of [StreamTime] starts exactly one ticker, of period
    two seconds, and touches no other: after any wake-ups the tickers
    of the process are those from before the call followed by this
    one.  When the last wake-up the call saw is the cancellation, it
    has returned nil and the ticker is stopped; when it is a tick whose
    send failed, it has returned the Internal status and the ticker is
    stopped; in both cases as many tickers are running as before the
    call.  In every other case the call waits in its [select], on this
    ticker, which ticks, and one more ticker is running than before the
    call.  So at any moment of the call at most one ticker of its own
    is running, and none once it has returned, on either exit. *)
Theorem C3_one_ticker_stopped_on_return evs w :
  let c := (Mtls.StreamTime F evs w).1 in
  let w' := (Mtls.StreamTime F evs w).2 in
  ∃ tk : Ticker,
    tickers w' = tickers w ++ [tk]
    ∧ period tk = 2 * Second
    ∧ match last (taken evs) with
      | Some ctx_Done =>
          c = Return None
          ∧ ticking tk = false
          ∧ ticking_count (tickers w') = ticking_count (tickers w)
      | Some (ticker_C _ (Some err)) =>
          c = Return (Some {| code := Internal;
                              message := "failed to send time: " +:+ err |})
          ∧ ticking tk = false
          ∧ ticking_count (tickers w') = ticking_count (tickers w)
      | Some (ticker_C _ None) | None =>
          c = Select (length (tickers w))
          ∧ ticking tk = true
          ∧ ticking_count (tickers w') = S (ticking_count (tickers w))
      end.
Proof.
  cbv zeta. rewrite Mtls_StreamTime_unfold, Mtls_enter. cbn [fst snd].
  destruct (Mtls_run_Select (length (tickers w)) evs
              (set_tickers (λ l, l ++ [{| period := 2 * Second; ticking := true |}])
                 (set_logged (λ l, l ++ ["StreamTime request received"]) w)))
    as (Hc & _ & Ht & _).
  rewrite Hc, Ht. cbn [tickers set_tickers set_logged].
  destruct (last (taken evs)) as [[|t [e|]]|]; cbn [exit_of].
  1,2: exists {| period := 2 * Second; ticking := false |};
       rewrite alter_app_r_alt, Nat.sub_diag by lia;
       cbn [alter list_alter stopped period];
       rewrite ticking_count_snoc; done.
  all: exists {| period := 2 * Second; ticking := true |};
       rewrite ticking_count_snoc; done.
Qed.

(** C4. The calls of [stream.Send] a call of [StreamTime] makes are,
    in this order, one for each tick it sees, and the messages the
    transport accepted are those of the ticks whose send succeeded.
    Once the call has returned, whatever wakes up later changes
    nothing: no further message is sent. *)
Theorem C4_one_send_per_tick_in_order evs more w :
  let w' := (Mtls.StreamTime F evs w).2 in
  sends w' = sends w ++ (Send_of F <$> ticks (taken evs))
  ∧ written w' =
      written w ++
        ((λ t, {| CurrentTime := F t |}) <$> accepted (ticks (taken evs)))
  ∧ ((∃ err, (Mtls.StreamTime F evs w).1 = Return err) →
     Mtls.StreamTime F (evs ++ more) w = Mtls.StreamTime F evs w).
Proof.
  cbv zeta. split_and!.
  - rewrite Mtls_StreamTime_unfold, Mtls_enter. cbn [fst snd].
    by destruct (Mtls_run_Select (length (tickers w)) evs
              (set_tickers (λ l, l ++ [{| period := 2 * Second; ticking := true |}])
                 (set_logged (λ l, l ++ ["StreamTime request received"]) w)))
      as (_ & -> & _).
  - unfold written. rewrite Mtls_StreamTime_unfold, Mtls_enter. cbn [fst snd].
    destruct (Mtls_run_Select (length (tickers w)) evs
              (set_tickers (λ l, l ++ [{| period := 2 * Second; ticking := true |}])
                 (set_logged (λ l, l ++ ["StreamTime request received"]) w)))
      as (_ & -> & _).
    cbn [sends set_tickers set_logged].
    by rewrite omap_app, written_sends.
  - intros [err Herr]. rewrite !Mtls_StreamTime_unfold in *.
    rewrite Mtls_run_app, Herr, Mtls_run_returned by done.
    by rewrite <- Herr, <- surjective_pairing.
Qed.

(** *** The standalone [StreamTime] against the mTLS one *)

Lemma Standalone_run_cons c ev evs w :
  Standalone.StreamTime_run F c (ev :: evs) w =
    Standalone.StreamTime_run F (Standalone.StreamTime_step F c ev w).1 evs
      (Standalone.StreamTime_step F c ev w).2.
Proof.
  cbn [Standalone.StreamTime_run]. unfold mbind, Go_bind.
  by destruct (Standalone.StreamTime_step F c ev w).
Qed.

Lemma Standalone_StreamTime_unfold evs w :
  Standalone.StreamTime F evs w =
    Standalone.StreamTime_run F (Standalone.StreamTime_enter w).1 evs
      (Standalone.StreamTime_enter w).2.
Proof.
  unfold Standalone.StreamTime, mbind, Go_bind.
  by destruct (Standalone.StreamTime_enter w).
Qed.

Lemma Standalone_step_Done tk w :
  Standalone.StreamTime_step F (Select tk) ctx_Done w =
    (Return None,
     set_tickers (alter stopped tk)
       (set_logged (λ l, l ++ ["Client disconnected"]) w)).
Proof. reflexivity. Qed.

Lemma Standalone_step_fail tk t e w :
  Standalone.StreamTime_step F (Select tk) (ticker_C t (Some e)) w =
    (Return (Some (status_Errorf Internal ("failed to send time: " +:+ e))),
     set_tickers (alter stopped tk)
       (set_logged (λ l, l ++ ["Error sending time: " +:+ e])
          (set_sends (λ l, l ++ [Send_of F (t, Some e)]) w))).
Proof. reflexivity. Qed.

Lemma Standalone_step_sent tk t w :
  Standalone.StreamTime_step F (Select tk) (ticker_C t None) w =
    (Select tk,
     set_logged (λ l, l ++ ["Sent time: " +:+ F t])
       (set_sends (λ l, l ++ [Send_of F (t, None)]) w)).
Proof. reflexivity. Qed.

Lemma step_same_but_period l0 c ev wm ws :
  same_but_period l0 wm ws →
  c = Select (length l0) ∨ (∀ tk, c ≠ Select tk) →
  let rm := Mtls.StreamTime_step F c ev wm in
  let rs := Standalone.StreamTime_step F c ev ws in
  rs.1 = rm.1 ∧ same_but_period l0 rm.2 rs.2
  ∧ (rm.1 = Select (length l0) ∨ (∀ tk, rm.1 ≠ Select tk)).
Proof.
  intros (Hl & Hs & Hm & Hh & Hst & b & Htm & Hts) [->|Hc]; cbv zeta.
  - destruct ev as [|t [e|]];
      rewrite ?(Mtls_step_Done _ wm), ?(Mtls_step_fail _ _ _ wm),
        ?(Mtls_step_sent _ _ wm), ?(Standalone_step_Done _ ws),
        ?(Standalone_step_fail _ _ _ ws), ?(Standalone_step_sent _ _ ws);
      unfold same_but_period; cbn;
      rewrite ?Hl, ?Hs, ?Hm, ?Hh, ?Hst, ?Htm, ?Hts;
      rewrite ?alter_app_r_alt, ?Nat.sub_diag by lia;
      cbn [alter list_alter period]; split_and!; eauto.
  - destruct c as [tk| |]; [by destruct (Hc tk)|..]; cbn;
      (split_and!; [done| |by right]);
      unfold same_but_period; split_and!; eauto.
Qed.

Lemma run_same_but_period l0 c evs wm ws :
  same_but_period l0 wm ws →
  c = Select (length l0) ∨ (∀ tk, c ≠ Select tk) →
  let rm := Mtls.StreamTime_run F c evs wm in
  let rs := Standalone.StreamTime_run F c evs ws in
  rs.1 = rm.1 ∧ same_but_period l0 rm.2 rs.2.
Proof.
  revert c wm ws. induction evs as [|ev evs IH]; intros c wm ws HR Hc; [done|].
  cbv zeta.
  rewrite (Mtls_run_cons c ev evs wm), (Standalone_run_cons c ev evs ws).
  destruct (step_same_but_period l0 c ev wm ws HR Hc) as (Hc' & HR' & Hsel).
  rewrite Hc'. by apply IH.
Qed.

(** C10. On the same wake-ups and from the same process state, the
    standalone [StreamTime] and the mTLS one end in the same place
    (waiting on the same ticker handle, returned nil, or returned the
    same Internal status), have made the same calls of [stream.Send]
    with the same RFC 3339 texts, and have printed the same lines.
    The two states differ only in the period of the ticker the call
    started: two seconds for the mTLS server, one for the standalone
    one. *)
Theorem C10_standalone_equals_mtls_up_to_period evs w :
  let rm := Mtls.StreamTime F evs w in
  let rs := Standalone.StreamTime F evs w in
  rs.1 = rm.1
  ∧ sends rs.2 = sends rm.2
  ∧ written rs.2 = written rm.2
  ∧ same_but_period (tickers w) rm.2 rs.2.
Proof.
  cbv zeta.
  rewrite (Mtls_StreamTime_unfold evs w), (Standalone_StreamTime_unfold evs w).
  destruct (run_same_but_period (tickers w)
              (Select (length (tickers w))) evs
              (Mtls.StreamTime_enter w).2 (Standalone.StreamTime_enter w).2)
    as (Hc & HR).
  - unfold same_but_period. cbn. split_and!; eauto.
  - by left.
  - pose proof HR as (_ & Hs & _).
    split_and!; [exact Hc|symmetry; exact Hs| |exact HR].
    unfold written. f_equal. symmetry. exact Hs.
Qed.

(** *** The session next to the health requests *)

Lemma Mtls_step_view c ev w1 w2 :
  sends w1 = sends w2 → tickers w1 = tickers w2 →
  session_view (Mtls.StreamTime_step F c ev w1).1
               (Mtls.StreamTime_step F c ev w1).2
  = session_view (Mtls.StreamTime_step F c ev w2).1
                 (Mtls.StreamTime_step F c ev w2).2.
Proof.
  intros Hs Ht. destruct c as [tk| |].
  - destruct ev as [|t [e|]];
      rewrite ?(Mtls_step_Done _ w1), ?(Mtls_step_fail _ _ _ w1),
        ?(Mtls_step_sent _ _ w1), ?(Mtls_step_Done _ w2),
        ?(Mtls_step_fail _ _ _ w2), ?(Mtls_step_sent _ _ w2);
      unfold session_view; cbn; by rewrite ?Hs, ?Ht.
  - unfold session_view. cbn. by rewrite Hs, Ht.
  - unfold session_view. cbn. by rewrite Hs, Ht.
Qed.

Lemma request_step_frame r w r' w' :
  Mtls.request_step r w = Some (r', w') →
  sends w' = sends w ∧ tickers w' = tickers w.
Proof.
  destruct r as [pc|service [reply|]]; cbn; [|done|by intros [= <- <-]].
  destruct pc; cbn; try destruct (mu w); by intros [= <- <-].
Qed.

Lemma Server_run_view sched : ∀ srv w,
  sends w = sends (Mtls.world srv) → tickers w = tickers (Mtls.world srv) →
  session_view (Mtls.stream_call (Mtls.Server_run F srv sched))
               (Mtls.world (Mtls.Server_run F srv sched))
  = session_view (Mtls.StreamTime_run F (Mtls.stream_call srv) (wakes sched) w).1
                 (Mtls.StreamTime_run F (Mtls.stream_call srv) (wakes sched) w).2.
Proof.
  unfold Mtls.Server_run.
  induction sched as [|s sched IH]; intros srv w Hs Ht.
  - unfold session_view. cbn. by rewrite Hs, Ht.
  - cbn [foldl]. destruct s as [i|ev].
    + change (wakes (Mtls.run_request i :: sched)) with (wakes sched).
      unfold Mtls.Server_step.
      destruct (Mtls.requests srv !! i) as [r|]; [|by apply IH].
      destruct (Mtls.request_step r (Mtls.world srv)) as [[r' w']|] eqn:E;
        [|by apply IH].
      apply request_step_frame in E as [Es Et].
      rewrite (IH _ w); cbn; congruence.
    + change (wakes (Mtls.wake ev :: sched)) with (ev :: wakes sched).
      rewrite Mtls_run_cons.
      pose proof (Mtls_step_view (Mtls.stream_call srv) ev w (Mtls.world srv)
                    Hs Ht) as Hv.
      unfold Mtls.Server_step.
      destruct (Mtls.StreamTime_step F (Mtls.stream_call srv) ev (Mtls.world srv))
        as [c1 w1].
      destruct (Mtls.StreamTime_step F (Mtls.stream_call srv) ev w) as [c2 w2].
      unfold session_view in Hv. cbn in Hv. injection Hv as -> Hs' Ht'.
      by rewrite (IH _ w2).
Qed.

(** C6. What a [StreamTime] call does is the same whatever happens to
    the health state next to it.  Take two runs of the server in which
    the call stands at the same point with the same ticker and the
    same sends behind it, and which have the same wake-ups of its
    [select]; the two runs may differ in [isHealthy], in the status
    map, in [mu], in the toggle and check requests in flight and in
    how their statements fall between the wake-ups.  Then in both runs
    the call ends at the same point (still waiting, or returned the
    same value), has made the same calls of [stream.Send] and has left
    the same tickers. *)
Theorem C6_session_independent_of_health srv1 srv2 sched1 sched2 :
  Mtls.stream_call srv1 = Mtls.stream_call srv2 →
  sends (Mtls.world srv1) = sends (Mtls.world srv2) →
  tickers (Mtls.world srv1) = tickers (Mtls.world srv2) →
  wakes sched1 = wakes sched2 →
  session_view (Mtls.stream_call (Mtls.Server_run F srv1 sched1))
               (Mtls.world (Mtls.Server_run F srv1 sched1))
  = session_view (Mtls.stream_call (Mtls.Server_run F srv2 sched2))
                 (Mtls.world (Mtls.Server_run F srv2 sched2)).
Proof.
  intros Hc Hs Ht Hw.
  rewrite (Server_run_view sched1 srv1 (Mtls.world srv1)) by done.
  rewrite (Server_run_view sched2 srv2 (Mtls.world srv1)) by done.
  by rewrite Hc, Hw.
Qed.

End StreamTimeFacts.

(** A call that is cancelled after a tick, and one whose second send
    fails, in a process that already has a call waiting: on both exits
    the ticker of the call is stopped, and the ticker of the other call
    goes on. *)
Lemma C3_one_ticker_stopped_on_return_witness :
  (∃ tk : Ticker,
     tickers (Mtls.StreamTime (λ t : string, t)
                [ticker_C "2024-05-01T10:00:02Z" None; ctx_Done]
                (Mtls.StreamTime_enter Mtls.World_init).2).2
       = tickers (Mtls.StreamTime_enter Mtls.World_init).2 ++ [tk]
     ∧ period tk = 2 * Second
     ∧ (Mtls.StreamTime (λ t : string, t)
          [ticker_C "2024-05-01T10:00:02Z" None; ctx_Done]
          (Mtls.StreamTime_enter Mtls.World_init).2).1 = Return None
     ∧ ticking tk = false
     ∧ ticking_count
         (tickers (Mtls.StreamTime (λ t : string, t)
                     [ticker_C "2024-05-01T10:00:02Z" None; ctx_Done]
                     (Mtls.StreamTime_enter Mtls.World_init).2).2)
       = 1%nat)
  ∧ (∃ tk : Ticker,
       tickers (Mtls.StreamTime (λ t : string, t)
                  [ticker_C "2024-05-01T10:00:02Z" None;
                   ticker_C "2024-05-01T10:00:04Z" (Some "transport is closing")]
                  (Mtls.StreamTime_enter Mtls.World_init).2).2
         = tickers (Mtls.StreamTime_enter Mtls.World_init).2 ++ [tk]
       ∧ period tk = 2 * Second
       ∧ (Mtls.StreamTime (λ t : string, t)
            [ticker_C "2024-05-01T10:00:02Z" None;
             ticker_C "2024-05-01T10:00:04Z" (Some "transport is closing")]
            (Mtls.StreamTime_enter Mtls.World_init).2).1
         = Return (Some {| code := Internal;
                           message := "failed to send time: transport is closing" |})
       ∧ ticking tk = false
       ∧ ticking_count
           (tickers (Mtls.StreamTime (λ t : string, t)
                       [ticker_C "2024-05-01T10:00:02Z" None;
                        ticker_C "2024-05-01T10:00:04Z" (Some "transport is closing")]
                       (Mtls.StreamTime_enter Mtls.World_init).2).2)
         = 1%nat).
Proof.
  split.
  - exact (C3_one_ticker_stopped_on_return (λ t : string, t)
             [ticker_C "2024-05-01T10:00:02Z" None; ctx_Done]
             (Mtls.StreamTime_enter Mtls.World_init).2).
  - exact (C3_one_ticker_stopped_on_return (λ t : string, t)
             [ticker_C "2024-05-01T10:00:02Z" None;
              ticker_C "2024-05-01T10:00:04Z" (Some "transport is closing")]
             (Mtls.StreamTime_enter Mtls.World_init).2).
Defined.

(** A call that ticks twice and is then cancelled, in a fresh process;
    times are written as their RFC 3339 text. *)
Lemma C4_one_send_per_tick_in_order_witness :
  (∃ err,
     (Mtls.StreamTime (λ t : string, t)
        [ticker_C "2024-05-01T10:00:02Z" None;
         ticker_C "2024-05-01T10:00:04Z" None; ctx_Done]
        Mtls.World_init).1 = Return err)
  ∧ Mtls.StreamTime (λ t : string, t)
      ([ticker_C "2024-05-01T10:00:02Z" None;
        ticker_C "2024-05-01T10:00:04Z" None; ctx_Done]
       ++ [ticker_C "2024-05-01T10:00:06Z" None])
      Mtls.World_init
    = Mtls.StreamTime (λ t : string, t)
        [ticker_C "2024-05-01T10:00:02Z" None;
         ticker_C "2024-05-01T10:00:04Z" None; ctx_Done]
        Mtls.World_init.
Proof.
  split.
  - exists None. reflexivity.
  - apply (C4_one_send_per_tick_in_order (λ t : string, t)
             [ticker_C "2024-05-01T10:00:02Z" None;
              ticker_C "2024-05-01T10:00:04Z" None; ctx_Done]
             [ticker_C "2024-05-01T10:00:06Z" None] Mtls.World_init).
    exists None. reflexivity.
Defined.


(** Three ticks and then a cancellation: three messages, in order, and
    nil. *)
Example StreamTime_three_ticks_then_cancel :
  let r := Mtls.StreamTime (λ t : string, t)
             [ticker_C "2024-05-01T10:00:02Z" None;
              ticker_C "2024-05-01T10:00:04Z" None;
              ticker_C "2024-05-01T10:00:06Z" None; ctx_Done]
             Mtls.World_init in
  r.1 = Return None
  ∧ written r.2 = [{| CurrentTime := "2024-05-01T10:00:02Z" |};
                   {| CurrentTime := "2024-05-01T10:00:04Z" |};
                   {| CurrentTime := "2024-05-01T10:00:06Z" |}]
  ∧ tickers r.2 = [{| period := 2 * Second; ticking := false |}].
Proof. split_and!; reflexivity. Qed.

(** A transport that fails on the second send: one message, the
    Internal status, the ticker stopped, and the tick after it unseen. *)
Example StreamTime_second_send_fails :
  let r := Mtls.StreamTime (λ t : string, t)
             [ticker_C "2024-05-01T10:00:02Z" None;
              ticker_C "2024-05-01T10:00:04Z" (Some "transport is closing");
              ticker_C "2024-05-01T10:00:06Z" None]
             Mtls.World_init in
  r.1 = Return (Some {| code := Internal;
                        message := "failed to send time: transport is closing" |})
  ∧ written r.2 = [{| CurrentTime := "2024-05-01T10:00:02Z" |}]
  ∧ length (sends r.2) = 2%nat
  ∧ tickers r.2 = [{| period := 2 * Second; ticking := false |}].
Proof. split_and!; reflexivity. Qed.

Lemma C6_session_independent_of_health_witness :
  (Mtls.stream_call busy_server = Mtls.stream_call quiet_server
   ∧ sends (Mtls.world busy_server) = sends (Mtls.world quiet_server)
   ∧ tickers (Mtls.world busy_server) = tickers (Mtls.world quiet_server)
   ∧ isHealthy (Mtls.world busy_server) ≠ isHealthy (Mtls.world quiet_server))
  ∧ session_view
      (Mtls.stream_call
         (Mtls.Server_run (λ t : string, t) busy_server
            [Mtls.wake (ticker_C "2024-05-01T10:00:02Z" None);
             Mtls.run_request 0; Mtls.run_request 0; Mtls.run_request 1;
             Mtls.wake (ticker_C "2024-05-01T10:00:04Z" None);
             Mtls.run_request 0; Mtls.run_request 0; Mtls.wake ctx_Done]))
      (Mtls.world
         (Mtls.Server_run (λ t : string, t) busy_server
            [Mtls.wake (ticker_C "2024-05-01T10:00:02Z" None);
             Mtls.run_request 0; Mtls.run_request 0; Mtls.run_request 1;
             Mtls.wake (ticker_C "2024-05-01T10:00:04Z" None);
             Mtls.run_request 0; Mtls.run_request 0; Mtls.wake ctx_Done]))
    = session_view
        (Mtls.stream_call
           (Mtls.Server_run (λ t : string, t) quiet_server
              [Mtls.wake (ticker_C "2024-05-01T10:00:02Z" None);
               Mtls.wake (ticker_C "2024-05-01T10:00:04Z" None);
               Mtls.wake ctx_Done]))
        (Mtls.world
           (Mtls.Server_run (λ t : string, t) quiet_server
              [Mtls.wake (ticker_C "2024-05-01T10:00:02Z" None);
               Mtls.wake (ticker_C "2024-05-01T10:00:04Z" None);
               Mtls.wake ctx_Done])).
Proof.
  split.
  - split_and!; [reflexivity..|discriminate].
  - apply (C6_session_independent_of_health (λ t : string, t)
             busy_server quiet_server); reflexivity.
Defined.

(** ** The health toggle *)

(** A request that finds [mu] free is served in seven statements. *)
Lemma toggle_health_served w :
  mu w = false →
  Mtls.toggle_health w =
    Some ("Health status is now "
            +:+ (if negb (isHealthy w) then "HEALTHY" else "UNHEALTHY") +:+ LF,
          toggled w).
Proof.
  destruct w as [lg tk sd m h st]. cbn. intros ->.
  unfold Mtls.toggle_health, toggled. by destruct h.
Qed.

(** A request that finds [mu] held is not served. *)
Lemma toggle_health_blocked w : mu w = true → Mtls.toggle_health w = None.
Proof.
  intros H. unfold Mtls.toggle_health. cbn. by rewrite H.
Qed.

Lemma toggles_S n w :
  Mtls.toggles (S n) w =
    match Mtls.toggles n w with
    | Some (bodies, w') =>
        match Mtls.toggle_health w' with
        | Some (body, w'') => Some (body :: bodies, w'')
        | None => None
        end
    | None => None
    end.
Proof. reflexivity. Qed.

(** C2. From a state in which the health is SERVING ([isHealthy] is true
    and the status map says SERVING for the whole service) and [mu] is
    free, [n] toggle requests in a row are all served, and afterwards
    the status is SERVING when [n] is even and NOT_SERVING when [n] is
    odd, in [isHealthy], in the status map and in the answer of a
    [Check]. *)
Theorem C2_toggle_parity n w0 :
  mu w0 = false → isHealthy w0 = true → statusMap w0 !! "" = Some SERVING →
  ∃ bodies w,
    Mtls.toggles n w0 = Some (bodies, w)
    ∧ length bodies = n
    ∧ mu w = false
    ∧ isHealthy w = Nat.even n
    ∧ statusMap w !! "" = Some (if Nat.even n then SERVING else NOT_SERVING)
    ∧ (healthServer_Check "" w).1 =
        inl (if Nat.even n then SERVING else NOT_SERVING).
Proof.
  intros Hmu Hh Hst. induction n as [|n (bodies & w & Hn & Hlen & Hm & Hi & Hs & _)].
  - exists [], w0. cbn. by rewrite Hst.
  - rewrite toggles_S, Hn, (toggle_health_served w Hm).
    eexists _, _. split; [done|].
    rewrite Nat.even_succ, <- Nat.negb_even.
    unfold healthServer_Check. cbn. rewrite Hi, lookup_insert_eq.
    by rewrite Hlen.
Qed.

Lemma C2_toggle_parity_witness :
  (mu World_serving = false ∧ isHealthy World_serving = true
   ∧ statusMap World_serving !! "" = Some SERVING)
  ∧ ∃ bodies w,
      Mtls.toggles 3 World_serving = Some (bodies, w)
      ∧ length bodies = 3%nat
      ∧ mu w = false
      ∧ isHealthy w = Nat.even 3
      ∧ statusMap w !! "" = Some (if Nat.even 3 then SERVING else NOT_SERVING)
      ∧ (healthServer_Check "" w).1 =
          inl (if Nat.even 3 then SERVING else NOT_SERVING).
Proof.
  split.
  - split_and!; reflexivity.
  - apply (C2_toggle_parity 3 World_serving); reflexivity.
Defined.

(** C5. A toggle request that gets [mu] is served within the request:
    it flips [isHealthy], leaves [mu] free, and a [Check] made
    afterwards answers the new status.  The body is "Health status is
    now " followed by the word for the new status and a line feed: the
    word "UNHEALTHY" is in the body exactly when the new status is
    NOT_SERVING, and the word "HEALTHY" exactly when it is SERVING. *)
Theorem C5_toggle_reports_status w :
  mu w = false →
  ∃ body w',
    Mtls.toggle_health w = Some (body, w')
    ∧ mu w' = false
    ∧ isHealthy w' = negb (isHealthy w)
    ∧ (healthServer_Check "" w').1 =
        inl (if isHealthy w' then SERVING else NOT_SERVING)
    ∧ body = "Health status is now "
               +:+ (if isHealthy w' then "HEALTHY" else "UNHEALTHY") +:+ LF
    ∧ (has_word body "UNHEALTHY" = true
       ↔ (healthServer_Check "" w').1 = inl NOT_SERVING)
    ∧ (has_word body "HEALTHY" = true
       ↔ (healthServer_Check "" w').1 = inl SERVING).
Proof.
  intros Hmu. rewrite (toggle_health_served w Hmu). eexists _, _.
  split; [done|]. unfold healthServer_Check. cbn. rewrite lookup_insert_eq.
  destruct (isHealthy w); cbn; split_and!; try done.
Qed.

(** The two requests of the scenario.  The server starts with the
    status SERVING; the first request answers with the word "UNHEALTHY"
    and a [Check] then answers NOT_SERVING, the second one answers with
    the word "HEALTHY" and a [Check] then answers SERVING. *)
Lemma C5_toggle_reports_status_witness :
  (mu World_serving = false
   ∧ (healthServer_Check "" World_serving).1 = inl SERVING
   ∧ ∃ body w',
       Mtls.toggle_health World_serving = Some (body, w')
       ∧ mu w' = false
       ∧ isHealthy w' = negb (isHealthy World_serving)
       ∧ (healthServer_Check "" w').1 =
           inl (if isHealthy w' then SERVING else NOT_SERVING)
       ∧ body = "Health status is now "
                  +:+ (if isHealthy w' then "HEALTHY" else "UNHEALTHY") +:+ LF
       ∧ (has_word body "UNHEALTHY" = true
          ↔ (healthServer_Check "" w').1 = inl NOT_SERVING)
       ∧ (has_word body "HEALTHY" = true
          ↔ (healthServer_Check "" w').1 = inl SERVING))
  ∧ (mu (toggled World_serving) = false
     ∧ (healthServer_Check "" (toggled World_serving)).1 = inl NOT_SERVING
     ∧ Mtls.toggle_health World_serving =
         Some ("Health status is now UNHEALTHY" +:+ LF, toggled World_serving)
     ∧ ∃ body w',
         Mtls.toggle_health (toggled World_serving) = Some (body, w')
         ∧ mu w' = false
         ∧ isHealthy w' = negb (isHealthy (toggled World_serving))
         ∧ (healthServer_Check "" w').1 =
             inl (if isHealthy w' then SERVING else NOT_SERVING)
         ∧ body = "Health status is now "
                    +:+ (if isHealthy w' then "HEALTHY" else "UNHEALTHY") +:+ LF
         ∧ (has_word body "UNHEALTHY" = true
            ↔ (healthServer_Check "" w').1 = inl NOT_SERVING)
         ∧ (has_word body "HEALTHY" = true
            ↔ (healthServer_Check "" w').1 = inl SERVING)).
Proof.
  split.
  - split; [reflexivity|]. split; [reflexivity|].
    apply (C5_toggle_reports_status World_serving). reflexivity.
  - split; [reflexivity|]. split; [reflexivity|]. split; [reflexivity|].
    apply (C5_toggle_reports_status (toggled World_serving)). reflexivity.
Defined.

(** ** Start-up *)

Lemma set_logged_app (l1 l2 : list string) w :
  set_logged (λ l, l ++ l2) (set_logged (λ l, l ++ l1) w)
  = set_logged (λ l, l ++ (l1 ++ l2)) w.
Proof. unfold set_logged. cbn. by rewrite <- app_assoc. Qed.

Lemma set_logged_nil w : set_logged (λ l, l ++ []) w = w.
Proof. destruct w. unfold set_logged. cbn. by rewrite app_nil_r. Qed.

Lemma exec_Println s (lines : list string) w :
  exec (log_Println s) (set_logged (λ l, l ++ lines) w)
  = set_logged (λ l, l ++ (lines ++ [s])) w.
Proof. unfold exec, log_Println. cbn. apply set_logged_app. Qed.

(** One turn keeps the start-up on its way. *)
Lemma Startup_step_inv a1 r1 d1 a2 r2 d2 w0 st turn :
  up_inv a1 r1 d1 a2 r2 d2 w0 st →
  up_inv a1 r1 d1 a2 r2 d2 w0 (Startup_step st turn).
Proof.
  intros Hinv. unfold Startup_step.
  destruct (up_exit st) as [c|] eqn:He; [done|].
  destruct Hinv as (k1 & k2 & lines & Hm & Hg & H1 & H2 & Hw & Hp & _).
  destruct turn.
  - rewrite Hm, Hw.
    destruct k1 as [|[|[|[|k1]]]]; [| | | |lia]; cbn [thread_at].
    + exists 1%nat, k2, (lines ++ [a1]). cbn -[exec]. rewrite exec_Println.
      split_and!; try done; try lia.
      rewrite Hp. cbn. by rewrite <- Permutation_cons_append.
    + exists 2%nat, k2, lines. cbn. split_and!; try done; lia.
    + destruct r1 as [err|]; cbn -[exec].
      * exists 3%nat, k2, (lines ++ [d1 +:+ err]). cbn -[exec].
        unfold log_Printf. rewrite exec_Println.
        split_and!; try done; try lia.
        rewrite Hp. cbn. apply perm_skip. by rewrite <- Permutation_cons_append.
      * exists 2%nat, k2, lines. cbn. split_and!; try done; lia.
    + destruct r1 as [err|]; cbn -[exec].
      * exists 3%nat, k2, lines. cbn. split_and!; try done. left. by eauto.
      * exists 3%nat, k2, lines. cbn. split_and!; try done.
  - rewrite Hg, Hw.
    destruct k2 as [|[|[|[|k2]]]]; [| | | |lia]; cbn [thread_at].
    + exists k1, 1%nat, (lines ++ [a2]). cbn -[exec]. rewrite exec_Println.
      split_and!; try done; try lia.
      rewrite Hp. cbn. by rewrite app_nil_r.
    + exists k1, 2%nat, lines. cbn. split_and!; try done; lia.
    + destruct r2 as [err|]; cbn -[exec].
      * exists k1, 3%nat, (lines ++ [d2 +:+ err]). cbn -[exec].
        unfold log_Printf. rewrite exec_Println.
        split_and!; try done; try lia.
        rewrite Hp. by rewrite <- app_assoc.
      * exists k1, 2%nat, lines. cbn. split_and!; try done; lia.
    + destruct r2 as [err|]; cbn -[exec].
      * exists k1, 3%nat, lines. cbn. split_and!; try done. right. by eauto.
      * exists k1, 3%nat, lines. cbn. split_and!; try done.
Qed.

Lemma Startup_foldl_inv a1 r1 d1 a2 r2 d2 w0 sched st :
  up_inv a1 r1 d1 a2 r2 d2 w0 st →
  up_inv a1 r1 d1 a2 r2 d2 w0 (foldl Startup_step st sched).
Proof.
  revert st. induction sched as [|turn sched IH]; intros st Hinv; [done|].
  cbn. by apply IH, Startup_step_inv.
Qed.

(** Left to run, a start-up on its way ends: the process has exited, or
    no call has failed and both goroutines are blocked, each in its call
    that serves. *)
Lemma Startup_completes a1 r1 d1 a2 r2 d2 w0 st :
  up_inv a1 r1 d1 a2 r2 d2 w0 st →
  let st' := foldl Startup_step st (replicate 4 turn_main ++ replicate 4 turn_go) in
  up_exit st' = None →
  r1 = None ∧ r2 = None ∧ up_main st' = Blocks ∧ up_go st' = Blocks.
Proof.
  intros (k1 & k2 & lines & Hm & Hg & H1 & H2 & Hw & Hp & He).
  destruct st as [w m g e]. cbn in Hm, Hg, Hw, He. subst m g.
  destruct e as [c|]; [done|].
  destruct k1 as [|[|[|[|k1]]]]; [| | | |lia];
    destruct k2 as [|[|[|[|k2]]]]; try lia;
    destruct r1, r2; cbn; done.
Qed.

(** How the start-up of two goroutines ends, whatever the schedule.
    The state is the one it started from with some lines printed.  When
    the process has exited, its status is 1, a call has failed and its
    diagnostic is among the lines.  Otherwise no call has failed and
    the lines are the two the goroutines print first, in some order. *)
Lemma Startup_run_outcome a1 r1 d1 a2 r2 d2 w sched :
  let st := Startup_run {| up_world := w;
                           up_main := thread_at a1 r1 d1 0;
                           up_go := thread_at a2 r2 d2 0;
                           up_exit := None |} sched in
  ∃ lines,
    up_world st = set_logged (λ l, l ++ lines) w
    ∧ match up_exit st with
      | Some code =>
          code = 1
          ∧ ((∃ err, r1 = Some err ∧ d1 +:+ err ∈ lines)
             ∨ (∃ err, r2 = Some err ∧ d2 +:+ err ∈ lines))
      | None => r1 = None ∧ r2 = None ∧ lines ≡ₚ [a1; a2]
      end.
Proof.
  cbv zeta. unfold Startup_run. rewrite foldl_app.
  set (st0 := {| up_world := w; up_main := _; up_go := _; up_exit := _ |}).
  set (st := foldl Startup_step (foldl Startup_step st0 sched) _).
  assert (up_inv a1 r1 d1 a2 r2 d2 w st0) as H0.
  { exists 0%nat, 0%nat, []. cbn. split_and!; try done; try lia.
    by rewrite set_logged_nil. }
  apply (Startup_foldl_inv _ _ _ _ _ _ _ sched) in H0.
  pose proof (Startup_completes _ _ _ _ _ _ _ _ H0) as Hend.
  apply (Startup_foldl_inv _ _ _ _ _ _ _
           (replicate 4 turn_main ++ replicate 4 turn_go)) in H0.
  cbv zeta in Hend. fold st in Hend, H0.
  destruct H0 as (k1 & k2 & lines & Hm & Hg & H1 & H2 & Hw & Hp & He).
  exists lines. split; [done|].
  destruct (up_exit st) as [c|].
  - destruct He as [-> [[-> [err ->]]|[-> [err ->]]]]; (split; [done|]).
    + left. exists err. split; [done|]. rewrite Hp.
      apply list_elem_of_In, in_or_app. left. cbn. auto.
    + right. exists err. split; [done|]. rewrite Hp.
      apply list_elem_of_In, in_or_app. right. cbn. auto.
  - destruct Hend as (-> & -> & Hbm & Hbg); [done|]. split_and!; try done.
    rewrite Hm in Hbm. rewrite Hg in Hbg.
    destruct k1 as [|[|[|?]]]; try done; destruct k2 as [|[|[|?]]]; done.
Qed.

(** [main] of the mTLS server, call by call. *)
Lemma Mtls_main_unfold h w :
  Mtls.main h w =
    match Mtls.host_LoadX509KeyPair h with
    | inr err =>
        (Mtls.os_Exit 1,
         set_logged (λ l, l ++ ["failed to load server cert: " +:+ err]) w)
    | inl serverCert =>
    match Mtls.host_ReadFile h with
    | inr err =>
        (Mtls.os_Exit 1,
         set_logged (λ l, l ++ ["failed to read ca cert: " +:+ err]) w)
    | inl caCert =>
    match Mtls.host_Listen h with
    | inr err =>
        (Mtls.os_Exit 1, set_logged (λ l, l ++ ["failed to listen: " +:+ err]) w)
    | inl lis =>
        let up :=
          Startup_run
            {| up_world :=
                 set_statusMap (λ _, <["" := SERVING]> (Mtls.host_NewServer h)) w;
               up_main :=
                 thread_at "Health toggle server listening at :8081"
                   (Mtls.host_ListenAndServe h) "failed to start HTTP server: " 0;
               up_go :=
                 thread_at ("gRPC server with mTLS listening at " +:+ lis)
                   (Mtls.host_Serve h) "failed to serve: " 0;
               up_exit := None |}
            (Mtls.host_sched h) in
        (match up_exit up with
         | Some code => Mtls.os_Exit code
         | None =>
             Mtls.serving {| Mtls.Certificates := [serverCert];
                             Mtls.ClientCAs := Mtls.host_PEM h caCert;
                             Mtls.ClientAuth := Mtls.RequireAndVerifyClientCert |}
         end, up_world up)
    end end end.
Proof.
  unfold Mtls.main.
  destruct (Mtls.host_LoadX509KeyPair h) as [serverCert|e1]; [|done].
  destruct (Mtls.host_ReadFile h) as [caCert|e2]; [|done].
  cbn [Mtls.AppendCertsFromPEM].
  destruct (Mtls.host_Listen h) as [lis|e3]; [|done].
  reflexivity.
Qed.

(** When [main] comes to serve, every checked call has succeeded, the
    client CA pool holds what was parsed from the CA file, and the state
    is the initial one with the status of the whole service set to
    SERVING and the two start-up lines printed, in the order in which
    the two goroutines came to print them. *)
Lemma main_serving h w config w' :
  Mtls.main h w = (Mtls.serving config, w') →
  ∃ serverCert caCert lis lines,
    Mtls.host_LoadX509KeyPair h = inl serverCert
    ∧ Mtls.host_ReadFile h = inl caCert
    ∧ Mtls.host_Listen h = inl lis
    ∧ Mtls.host_Serve h = None
    ∧ Mtls.host_ListenAndServe h = None
    ∧ config = {| Mtls.Certificates := [serverCert];
                  Mtls.ClientCAs := Mtls.host_PEM h caCert;
                  Mtls.ClientAuth := Mtls.RequireAndVerifyClientCert |}
    ∧ lines ≡ₚ ["Health toggle server listening at :8081";
                "gRPC server with mTLS listening at " +:+ lis]
    ∧ w' = set_logged (λ l, l ++ lines)
             (set_statusMap (λ _, <["" := SERVING]> (Mtls.host_NewServer h)) w).
Proof.
  rewrite Mtls_main_unfold.
  destruct (Mtls.host_LoadX509KeyPair h) as [serverCert|e1]; [|by intros [=]].
  destruct (Mtls.host_ReadFile h) as [caCert|e2]; [|by intros [=]].
  destruct (Mtls.host_Listen h) as [lis|e3]; [|by intros [=]].
  cbv zeta.
  match goal with
  | |- context [Startup_run {| up_world := ?w0; up_main := thread_at ?a1 ?r1 ?d1 0;
                               up_go := thread_at ?a2 ?r2 ?d2 0; up_exit := _ |} ?s] =>
      destruct (Startup_run_outcome a1 r1 d1 a2 r2 d2 w0 s) as (lines & Hw & He)
  end.
  cbv zeta in Hw, He.
  destruct (up_exit _) as [c|]; [by intros [=]|].
  destruct He as (Hs & Hl & Hp).
  intros [= <- <-]. exists serverCert, caCert, lis, lines.
  split_and!; done.
Qed.

(** A failure of one of the calls whose error [main] checks ends the
    process with exit code 1, and a line that names such a failure has
    been printed. *)
Lemma main_checked_failure_is_fatal h w :
  (∃ err, Mtls.host_LoadX509KeyPair h = inr err)
  ∨ (∃ err, Mtls.host_ReadFile h = inr err)
  ∨ (∃ err, Mtls.host_Listen h = inr err)
  ∨ (∃ err, Mtls.host_Serve h = Some err)
  ∨ (∃ err, Mtls.host_ListenAndServe h = Some err) →
  (Mtls.main h w).1 = Mtls.os_Exit 1
  ∧ ∃ (err : error) (lines : list string),
      logged (Mtls.main h w).2 = logged w ++ lines
      ∧ ("failed to load server cert: " +:+ err ∈ lines
         ∨ "failed to read ca cert: " +:+ err ∈ lines
         ∨ "failed to listen: " +:+ err ∈ lines
         ∨ "failed to serve: " +:+ err ∈ lines
         ∨ "failed to start HTTP server: " +:+ err ∈ lines).
Proof.
  intros H. rewrite Mtls_main_unfold.
  destruct (Mtls.host_LoadX509KeyPair h) as [serverCert|e1].
  2:{ split; [done|]. exists e1, ["failed to load server cert: " +:+ e1].
      split; [done|]. left. apply list_elem_of_In. cbn. auto. }
  destruct (Mtls.host_ReadFile h) as [caCert|e2].
  2:{ split; [done|]. exists e2, ["failed to read ca cert: " +:+ e2].
      split; [done|]. right; left. apply list_elem_of_In. cbn. auto. }
  destruct (Mtls.host_Listen h) as [lis|e3].
  2:{ split; [done|]. exists e3, ["failed to listen: " +:+ e3].
      split; [done|]. do 2 right; left. apply list_elem_of_In. cbn. auto. }
  cbv zeta.
  match goal with
  | |- context [Startup_run {| up_world := ?w0; up_main := thread_at ?a1 ?r1 ?d1 0;
                               up_go := thread_at ?a2 ?r2 ?d2 0; up_exit := _ |} ?s] =>
      destruct (Startup_run_outcome a1 r1 d1 a2 r2 d2 w0 s) as (lines & Hw & He)
  end.
  cbv zeta in Hw, He. rewrite Hw.
  destruct (up_exit _) as [c|].
  - destruct He as [-> [(err & _ & Hin)|(err & _ & Hin)]];
      (split; [done|]); exists err, lines; (split; [done|]); auto 10.
  - destruct He as (Hs & Hl & _).
    destruct H as [[? ?]|[[? ?]|[[? ?]|[[? ?]|[? ?]]]]]; congruence.
Qed.

Ltac startup_outcome lines Hw He :=
  cbv zeta;
  match goal with
  | |- context [Startup_run {| up_world := ?w0; up_main := thread_at ?a1 ?r1 ?d1 0;
                               up_go := thread_at ?a2 ?r2 ?d2 0; up_exit := _ |} ?s] =>
      destruct (Startup_run_outcome a1 r1 d1 a2 r2 d2 w0 s) as (lines & Hw & He)
  end;
  cbv zeta in Hw, He.

(** C7, at the input that breaks it.  When [certs/ca.crt] can be read
    and holds no certificate, [AppendCertsFromPEM] reports that nothing
    was parsed, [main] does not look at that, and, however the two
    goroutines are scheduled, the process comes to serve, requiring
    client certificates against an empty pool of client CAs; all it has
    printed are the two lines that say where the servers listen, and no
    diagnostic. *)
Theorem C7_CA_file_without_certificate_is_not_fatal :
  (Mtls.AppendCertsFromPEM (host_without_CA []) [] "not a certificate").2 = false
  ∧ ∀ sched,
      (Mtls.main (host_without_CA sched) Mtls.World_init).1 =
        Mtls.serving {| Mtls.Certificates := ["server certificate"];
                        Mtls.ClientCAs := [];
                        Mtls.ClientAuth := Mtls.RequireAndVerifyClientCert |}
      ∧ logged (Mtls.main (host_without_CA sched) Mtls.World_init).2 ≡ₚ
          ["gRPC server with mTLS listening at [::]:50051";
           "Health toggle server listening at :8081"].
Proof.
  split; [reflexivity|]. intros sched.
  rewrite Mtls_main_unfold. cbn [host_without_CA Mtls.host_LoadX509KeyPair
    Mtls.host_ReadFile Mtls.host_Listen Mtls.host_Serve Mtls.host_ListenAndServe
    Mtls.host_PEM Mtls.host_NewServer Mtls.host_sched].
  startup_outcome lines Hw He. rewrite Hw.
  destruct (up_exit _) as [c|].
  - by destruct He as [_ [(err & [=] & _)|(err & [=] & _)]].
  - destruct He as (_ & _ & Hp). split; [done|]. cbn. rewrite Hp. apply perm_swap.
Qed.

(** C8. Whatever the machine answers at start-up, once [main] serves,
    and so before any toggle request can be served, the status of the
    whole service (the empty service name) is SERVING in the status map
    and in the answer of a [Check], [isHealthy] is true and [mu] is
    free. *)
Theorem C8_initially_SERVING h config w :
  Mtls.main h Mtls.World_init = (Mtls.serving config, w) →
  statusMap w !! "" = Some SERVING
  ∧ (healthServer_Check "" w).1 = inl SERVING
  ∧ isHealthy w = true
  ∧ mu w = false.
Proof.
  intros (serverCert & caCert & lis & lines & _ & _ & _ & _ & _ & _ & _ & ->)%main_serving.
  unfold healthServer_Check. cbn. by rewrite lookup_insert_eq.
Qed.

Lemma C8_initially_SERVING_witness :
  Mtls.main good_host Mtls.World_init =
    (Mtls.serving {| Mtls.Certificates := ["server certificate"];
                     Mtls.ClientCAs := ["CA certificate"];
                     Mtls.ClientAuth := Mtls.RequireAndVerifyClientCert |},
     World_serving)
  ∧ statusMap World_serving !! "" = Some SERVING
  ∧ (healthServer_Check "" World_serving).1 = inl SERVING
  ∧ isHealthy World_serving = true
  ∧ mu World_serving = false.
Proof.
  split; [reflexivity|].
  apply (C8_initially_SERVING good_host
           {| Mtls.Certificates := ["server certificate"];
              Mtls.ClientCAs := ["CA certificate"];
              Mtls.ClientAuth := Mtls.RequireAndVerifyClientCert |}
           World_serving).
  reflexivity.
Defined.

(** ** Requests served at the same time *)

Section Interleaving.
Context {Time : Type} (F : Time → string).

Lemma crit_count_cons r l :
  crit_count (r :: l) =
    (if in_critical r then S (crit_count l) else crit_count l).
Proof.
  unfold crit_count. rewrite filter_cons.
  destruct (in_critical r); case_decide; done.
Qed.

Lemma crit_count_insert l i r r' :
  l !! i = Some r →
  (crit_count (<[i := r']> l) + (if in_critical r then 1 else 0)
   = crit_count l + (if in_critical r' then 1 else 0))%nat.
Proof.
  revert i. induction l as [|x l IH]; intros i Hi; [done|].
  destruct i as [|i]; cbn in Hi.
  - injection Hi as ->. change (<[0%nat:=r']> (r :: l)) with (r' :: l).
    rewrite !crit_count_cons. destruct (in_critical r), (in_critical r'); lia.
  - change (<[S i:=r']> (x :: l)) with (x :: <[i:=r']> l).
    rewrite !crit_count_cons.
    specialize (IH i Hi).
    destruct (in_critical x), (in_critical r), (in_critical r'); lia.
Qed.

Lemma crit_count_0 l :
  crit_count l = 0%nat → Forall (λ r, in_critical r = false) l.
Proof.
  induction l as [|x l IH]; [constructor|].
  rewrite crit_count_cons. destruct (in_critical x) eqn:E; [done|].
  intros H. constructor; auto.
Qed.

Lemma not_started_count l :
  Forall not_started l → crit_count l = 0%nat.
Proof.
  induction 1 as [|x l Hx _ IH]; [done|].
  rewrite crit_count_cons, IH.
  by destruct x as [[]|service [reply|]].
Qed.

(** A wake-up of the session leaves [mu], [isHealthy] and the status
    map alone. *)
Lemma Mtls_step_health c ev w :
  let w' := (Mtls.StreamTime_step F c ev w).2 in
  mu w' = mu w ∧ isHealthy w' = isHealthy w ∧ statusMap w' = statusMap w.
Proof.
  destruct c as [tk| |]; [|done..].
  destruct ev as [|t [e|]];
    rewrite ?Mtls_step_Done, ?Mtls_step_fail, ?Mtls_step_sent; done.
Qed.

Lemma at_pc_health w w' r :
  isHealthy w' = isHealthy w → statusMap w' = statusMap w →
  at_pc w r → at_pc w' r.
Proof.
  intros Hh Hs. unfold at_pc, agree. rewrite Hh, Hs. done.
Qed.

(** One statement of a toggle request that stands in its critical
    section, alone in it. *)
Lemma handler_step_critical pc w pc' w' :
  Mtls.handler_step pc w = Some (pc', w') →
  in_critical (Mtls.http_toggle pc) = true →
  mu w = true → at_pc w (Mtls.http_toggle pc) → status_ok w →
  (in_critical (Mtls.http_toggle pc') = true ∧ mu w' = true
   ∧ at_pc w' (Mtls.http_toggle pc')
   ∨ in_critical (Mtls.http_toggle pc') = false ∧ mu w' = false ∧ agree w')
  ∧ status_ok w'.
Proof.
  intros Hstep Hcrit Hmu Hpc Hok.
  destruct pc; try done; cbn in Hstep; injection Hstep as <- <-.
  - (* at_flip *) split; [|done]. left. by destruct (negb (isHealthy w)).
  - (* at_if *) split; [|done]. left.
    by destruct (isHealthy w) eqn:E.
  - (* at_SERVING *) split; [left|left]; cbn in *.
    + split_and!; try done. unfold agree. cbn. by rewrite Hpc, lookup_insert_eq.
    + by rewrite lookup_insert_eq.
  - (* at_NOT_SERVING *) split; [left|right]; cbn in *.
    + split_and!; try done. unfold agree. cbn. by rewrite Hpc, lookup_insert_eq.
    + by rewrite lookup_insert_eq.
  - (* at_Printf *) split; [|done]. by left.
  - (* at_Fprintf *) split; [|done]. by left.
  - (* at_Unlock *) split; [|done]. by right.
Qed.

Lemma Server_step_Inv srv s : Inv srv → Inv (Mtls.Server_step F srv s).
Proof.
  intros (Hcount & Hat & Hfree & Hok & Hrep).
  destruct s as [i|ev]; cbn [Mtls.Server_step].
  - destruct (Mtls.requests srv !! i) as [r|] eqn:Hi; [|done].
    destruct (Mtls.request_step r (Mtls.world srv)) as [[r' w']|] eqn:Hstep;
      [|done].
    pose proof (crit_count_insert _ _ _ r' Hi) as Hins.
    pose proof (crit_count_insert _ _ _ (Mtls.http_toggle at_Lock) Hi) as Hins0.
    destruct r as [pc|service [reply|]]; cbn in Hstep; [| done |].
    + destruct (Mtls.handler_step pc (Mtls.world srv)) as [[pc' w'']|] eqn:Hh;
        [|done].
      injection Hstep as <- <-.
      destruct (in_critical (Mtls.http_toggle pc)) eqn:Hcrit.
      * (* a statement inside the critical section *)
        assert (mu (Mtls.world srv) = true) as Hmu.
        { destruct (mu (Mtls.world srv)); [done|]. cbn in Hins0. lia. }
        rewrite Hmu in Hcount.
        assert (Forall (λ r, in_critical r = false)
                  (<[i := Mtls.http_toggle at_Lock]> (Mtls.requests srv)))
          as Hothers.
        { apply crit_count_0. cbn in Hins0. lia. }
        assert (at_pc (Mtls.world srv) (Mtls.http_toggle pc)) as Hpc.
        { by apply (Forall_lookup_1 _ _ _ _ Hat Hi). }
        destruct (handler_step_critical _ _ _ _ Hh Hcrit Hmu Hpc Hok)
          as [[(Hc' & Hmu' & Hpc')|(Hc' & Hmu' & Hag')] Hok'].
        -- split_and!; cbn [Mtls.world Mtls.requests].
           ++ rewrite Hmu'. rewrite Hc' in Hins. lia.
           ++ rewrite <- (list_insert_insert_eq _ _ _ (Mtls.http_toggle at_Lock)).
              apply Forall_insert; [|done].
              eapply Forall_impl; [exact Hothers|]. cbn. congruence.
           ++ by rewrite Hmu'.
           ++ done.
           ++ by apply Forall_insert.
        -- split_and!; cbn [Mtls.world Mtls.requests].
           ++ rewrite Hmu'. rewrite Hc' in Hins. lia.
           ++ rewrite <- (list_insert_insert_eq _ _ _ (Mtls.http_toggle at_Lock)).
              apply Forall_insert; [|by rewrite Hc'].
              eapply Forall_impl; [exact Hothers|]. cbn. congruence.
           ++ done.
           ++ done.
           ++ by apply Forall_insert.
      * (* [mu.Lock()] by a request that finds [mu] free *)
        destruct pc; try done. cbn in Hh.
        destruct (mu (Mtls.world srv)) eqn:Hmu; [done|].
        injection Hh as <- <-.
        assert (Forall (λ r, in_critical r = false) (Mtls.requests srv))
          as Hothers by by apply crit_count_0.
        split_and!; cbn [Mtls.world Mtls.requests].
        -- cbn in Hins |- *. lia.
        -- apply Forall_insert; [|by intros _; apply Hfree].
           eapply Forall_impl; [exact Hothers|]. cbn. congruence.
        -- done.
        -- done.
        -- by apply Forall_insert.
    + (* a [Check] is answered *)
      injection Hstep as <- <-.
      split_and!; cbn [Mtls.world Mtls.requests].
      * cbn in Hins. lia.
      * by apply Forall_insert.
      * done.
      * done.
      * apply Forall_insert; [done|]. unfold reply_ok.
        destruct service as [|a service]; [|done].
        destruct Hok as [->| ->]; auto.
  - (* a wake-up of the session *)
    destruct (Mtls_step_health (Mtls.stream_call srv) ev (Mtls.world srv))
      as (Hm & Hh & Hs).
    destruct (Mtls.StreamTime_step F (Mtls.stream_call srv) ev (Mtls.world srv))
      as [c w'].
    cbn [snd] in Hm, Hh, Hs. split_and!; cbn [Mtls.world Mtls.requests].
    + by rewrite Hm.
    + eapply Forall_impl; [exact Hat|]. cbn. intros r Hr Hc.
      by apply (at_pc_health (Mtls.world srv)); auto.
    + rewrite Hm. intros Hf. unfold agree. rewrite Hh, Hs. by apply Hfree.
    + unfold status_ok. by rewrite Hs.
    + done.
Qed.

Lemma Server_run_Inv srv sched : Inv srv → Inv (Mtls.Server_run F srv sched).
Proof.
  unfold Mtls.Server_run. revert srv.
  induction sched as [|s sched IH]; intros srv H; [done|].
  cbn [foldl]. by apply IH, Server_step_Inv.
Qed.

Lemma Inv_start srv :
  Forall not_started (Mtls.requests srv) →
  mu (Mtls.world srv) = false → agree (Mtls.world srv) → Inv srv.
Proof.
  intros Hreq Hmu Hag. split_and!.
  - by rewrite Hmu, not_started_count.
  - eapply Forall_impl; [exact Hreq|]. cbn.
    by intros [[]|service [reply|]].
  - done.
  - unfold status_ok. rewrite Hag. destruct (isHealthy _); auto.
  - eapply Forall_impl; [exact Hreq|]. cbn.
    by intros [[]|[|a service] [reply|]].
Qed.

(** C9, amended.  Start the server with [mu] free, [isHealthy] and the
    status of the whole service saying the same, and any requests,
    none of them started; let the scheduler run their statements and
    wake the session in any order.  Then at every moment at most one
    toggle request stands between its [mu.Lock()] and the end of its
    [mu.Unlock()], and one does exactly when [mu] is held; whenever
    [mu] is free, [isHealthy] and the status of the whole service say
    the same; and every [Check] of the whole service that has been
    answered was answered SERVING or NOT_SERVING. *)
Theorem C9_toggles_serialized_checks_atomic srv sched :
  Forall not_started (Mtls.requests srv) →
  mu (Mtls.world srv) = false →
  agree (Mtls.world srv) →
  let srv' := Mtls.Server_run F srv sched in
  crit_count (Mtls.requests srv') = (if mu (Mtls.world srv') then 1 else 0)%nat
  ∧ (mu (Mtls.world srv') = false → agree (Mtls.world srv'))
  ∧ ∀ i reply,
      Mtls.requests srv' !! i = Some (Mtls.grpc_Check "" (Some reply)) →
      reply = inl SERVING ∨ reply = inl NOT_SERVING.
Proof.
  intros Hreq Hmu Hag.
  destruct (Server_run_Inv srv sched (Inv_start srv Hreq Hmu Hag))
    as (Hcount & _ & Hfree & _ & Hrep).
  split_and!; [done..|].
  intros i reply Hi. by apply (Forall_lookup_1 _ _ _ _ Hrep Hi).
Qed.

End Interleaving.

(** One toggle request and one check, none started, next to a running
    session; the toggle runs to its end, the check in between. *)
Lemma C9_toggles_serialized_checks_atomic_witness :
  (Forall not_started (Mtls.requests busy_server)
   ∧ mu (Mtls.world busy_server) = false
   ∧ agree (Mtls.world busy_server))
  ∧ let srv' :=
      Mtls.Server_run (λ t : string, t) busy_server
        [Mtls.run_request 0; Mtls.run_request 0; Mtls.run_request 1;
         Mtls.wake (ticker_C "2024-05-01T10:00:02Z" None);
         Mtls.run_request 0; Mtls.run_request 0; Mtls.run_request 0;
         Mtls.run_request 0; Mtls.run_request 0] in
    crit_count (Mtls.requests srv') = (if mu (Mtls.world srv') then 1 else 0)%nat
    ∧ (mu (Mtls.world srv') = false → agree (Mtls.world srv'))
    ∧ ∀ i reply,
        Mtls.requests srv' !! i = Some (Mtls.grpc_Check "" (Some reply)) →
        reply = inl SERVING ∨ reply = inl NOT_SERVING.
Proof.
  assert (Forall not_started (Mtls.requests busy_server)) as Hreq
    by (repeat constructor).
  assert (agree (Mtls.world busy_server)) as Hag by reflexivity.
  split.
  - split_and!; [exact Hreq|reflexivity|exact Hag].
  - exact (C9_toggles_serialized_checks_atomic (λ t : string, t) busy_server
             [Mtls.run_request 0; Mtls.run_request 0; Mtls.run_request 1;
              Mtls.wake (ticker_C "2024-05-01T10:00:02Z" None);
              Mtls.run_request 0; Mtls.run_request 0; Mtls.run_request 0;
              Mtls.run_request 0; Mtls.run_request 0]
             Hreq eq_refl Hag).
Defined.

(** When the toggle request runs to its end before the check is served,
    the check does find [mu] free. *)
Example checks_wait_for_mu_in_turn :
  checks_wait_for_mu (λ t : string, t) busy_server
    [Mtls.run_request 0; Mtls.run_request 0; Mtls.run_request 0;
     Mtls.run_request 0; Mtls.run_request 0; Mtls.run_request 0;
     Mtls.run_request 0; Mtls.run_request 1].
Proof.
  intros n i service Hn Hi.
  do 7 (destruct n as [|n]; [by injection Hn as <-|]).
  destruct n as [|n]; [reflexivity|done].
Qed.

(** A check is served while a toggle request holds [mu]: the toggle has
    taken [mu] and flipped [isHealthy], and before it sets the status
    map the check runs and is answered SERVING.  The two operations
    overlap; they are not serialised under [mu]. *)
Lemma C9_counterexample :
  ¬ checks_wait_for_mu (λ t : string, t) busy_server
      [Mtls.run_request 0; Mtls.run_request 0; Mtls.run_request 1]
  ∧ let srv' :=
      Mtls.Server_run (λ t : string, t) busy_server
        [Mtls.run_request 0; Mtls.run_request 0; Mtls.run_request 1] in
    mu (Mtls.world srv') = true
    ∧ isHealthy (Mtls.world srv') = false
    ∧ Mtls.requests srv' =
        [Mtls.http_toggle at_if; Mtls.grpc_Check "" (Some (inl SERVING))].
Proof.
  split.
  - intros H. specialize (H 2%nat 1%nat "" eq_refl eq_refl). discriminate H.
  - split_and!; reflexivity.
Qed.

(** * More of the two programs *)

(** ** Start-up, call by call *)

(** X1. [main] of the mTLS server checks five calls: loading the key
    pair, reading the CA file and [net.Listen], one after the other,
    and then [s.Serve] in the goroutine it starts and
    [http.ListenAndServe] in its own, the two running at the same time.
    A failure of one of the first three ends the process with status 1
    at once: only its diagnostic is printed and the state is otherwise
    as it was.  After them the status of the whole service is set to
    SERVING, and however the two goroutines are scheduled the process
    either exits with status 1, one of the two calls having failed and
    its diagnostic being among the lines printed, or it serves, neither
    call having failed, with the loaded certificate, with the
    certificates parsed from the CA file as client CAs and requiring
    verified client certificates, having printed the two lines that
    say where the servers listen, in either order. *)
Theorem X1_mtls_main_outcomes h w :
  match Mtls.main h w with
  | (Mtls.os_Exit code, w') =>
      code = 1
      ∧ ((∃ err, Mtls.host_LoadX509KeyPair h = inr err
            ∧ w' = set_logged (λ l, l ++ ["failed to load server cert: " +:+ err]) w)
         ∨ (∃ err, succeeded (Mtls.host_LoadX509KeyPair h)
              ∧ Mtls.host_ReadFile h = inr err
              ∧ w' = set_logged (λ l, l ++ ["failed to read ca cert: " +:+ err]) w)
         ∨ (∃ err, succeeded (Mtls.host_LoadX509KeyPair h)
              ∧ succeeded (Mtls.host_ReadFile h)
              ∧ Mtls.host_Listen h = inr err
              ∧ w' = set_logged (λ l, l ++ ["failed to listen: " +:+ err]) w)
         ∨ (∃ lines,
              succeeded (Mtls.host_LoadX509KeyPair h)
              ∧ succeeded (Mtls.host_ReadFile h)
              ∧ succeeded (Mtls.host_Listen h)
              ∧ w' = set_logged (λ l, l ++ lines)
                       (set_statusMap
                          (λ _, <["" := SERVING]> (Mtls.host_NewServer h)) w)
              ∧ ((∃ err, Mtls.host_Serve h = Some err
                    ∧ "failed to serve: " +:+ err ∈ lines)
                 ∨ (∃ err, Mtls.host_ListenAndServe h = Some err
                      ∧ "failed to start HTTP server: " +:+ err ∈ lines))))
  | (Mtls.serving config, w') =>
      Mtls.host_Serve h = None
      ∧ Mtls.host_ListenAndServe h = None
      ∧ ∃ serverCert caCert lis lines,
          Mtls.host_LoadX509KeyPair h = inl serverCert
          ∧ Mtls.host_ReadFile h = inl caCert
          ∧ Mtls.host_Listen h = inl lis
          ∧ config = {| Mtls.Certificates := [serverCert];
                        Mtls.ClientCAs := Mtls.host_PEM h caCert;
                        Mtls.ClientAuth := Mtls.RequireAndVerifyClientCert |}
          ∧ w' = set_logged (λ l, l ++ lines)
                   (set_statusMap
                      (λ _, <["" := SERVING]> (Mtls.host_NewServer h)) w)
          ∧ lines ≡ₚ ["gRPC server with mTLS listening at " +:+ lis;
                      "Health toggle server listening at :8081"]
  end.
Proof.
  rewrite Mtls_main_unfold.
  destruct (Mtls.host_LoadX509KeyPair h) as [serverCert|e1].
  2:{ split; [done|]. left. by exists e1. }
  destruct (Mtls.host_ReadFile h) as [caCert|e2].
  2:{ split; [done|]. right; left. by exists e2. }
  destruct (Mtls.host_Listen h) as [lis|e3].
  2:{ split; [done|]. do 2 right; left. by exists e3. }
  startup_outcome lines Hw He. rewrite Hw.
  destruct (up_exit _) as [c|].
  - destruct He as [-> He]. split; [done|]. do 3 right. exists lines.
    split_and!; try done. destruct He as [He|He]; [by right|by left].
  - destruct He as (Hs & Hl & Hp). split_and!; try done.
    exists serverCert, caCert, lis, lines. split_and!; try done.
    rewrite Hp. apply perm_swap.
Qed.

(** [main] of the standalone server, call by call. *)
Lemma Standalone_main_unfold h w :
  Standalone.main h w =
    match Standalone.host_flag_Parse h with
    | Standalone.flag_exit code => (Standalone.os_Exit code, w)
    | Standalone.flags grpc_port http_port =>
    match Standalone.host_Listen h (":" +:+ pretty (default 50051 grpc_port)) with
    | inr err =>
        (Standalone.os_Exit 1,
         set_logged (λ l, l ++ ["failed to listen: " +:+ err]) w)
    | inl lis =>
        let httpAddr := ":" +:+ pretty (default 8081 http_port) in
        let up :=
          Startup_run
            {| up_world :=
                 set_statusMap
                   (λ _, <["" := SERVING]> (Standalone.host_NewServer h)) w;
               up_main :=
                 thread_at ("Health toggle server listening at " +:+ httpAddr)
                   (Standalone.host_ListenAndServe h httpAddr)
                   "failed to start HTTP server: " 0;
               up_go :=
                 thread_at ("gRPC server listening at " +:+ lis)
                   (Standalone.host_Serve h) "failed to serve: " 0;
               up_exit := None |}
            (Standalone.host_sched h) in
        (match up_exit up with
         | Some code => Standalone.os_Exit code
         | None => Standalone.serving lis httpAddr
         end, up_world up)
    end end.
Proof.
  unfold Standalone.main.
  destruct (Standalone.host_flag_Parse h) as [grpc_port http_port|code]; [|done].
  unfold Standalone.flag_Int, Standalone.Sprintf_port. cbv zeta.
  destruct (Standalone.host_Listen h _) as [lis|e1]; [|done].
  reflexivity.
Qed.

(** X2. [main] of the standalone server binds the gRPC listener at
    [":"] followed by the decimal value of [-grpc-port], 50051 when the
    flag is not given, and the HTTP server at [":"] followed by the
    value of [-http-port], 8081 when it is not given.  The flag package
    ends the process on a command line it rejects, nothing printed
    through [log]; a failure of [net.Listen] ends it with status 1,
    only its diagnostic printed.  After that the status of the whole
    service is set to SERVING, [s.Serve] runs in the goroutine [main]
    starts and [http.ListenAndServe] in its own, and however the two are
    scheduled the process either exits with status 1, one of the two
    calls having failed and its diagnostic being among the lines
    printed, or it serves, neither call having failed, having printed
    the two lines that say where the servers listen, in either order.
    There is no call at start-up whose failure goes unchecked. *)
Theorem X2_standalone_main_outcomes h w :
  match Standalone.main h w with
  | (Standalone.os_Exit code, w') =>
      (Standalone.host_flag_Parse h = Standalone.flag_exit code ∧ w' = w)
      ∨ (code = 1
         ∧ ∃ grpc_port http_port,
             Standalone.host_flag_Parse h = Standalone.flags grpc_port http_port
             ∧ ((∃ err,
                   Standalone.host_Listen h (":" +:+ pretty (default 50051 grpc_port))
                     = inr err
                   ∧ w' = set_logged (λ l, l ++ ["failed to listen: " +:+ err]) w)
                ∨ (∃ lines,
                     succeeded (Standalone.host_Listen h
                                  (":" +:+ pretty (default 50051 grpc_port)))
                     ∧ w' = set_logged (λ l, l ++ lines)
                              (set_statusMap
                                 (λ _, <["" := SERVING]> (Standalone.host_NewServer h))
                                 w)
                     ∧ ((∃ err, Standalone.host_Serve h = Some err
                           ∧ "failed to serve: " +:+ err ∈ lines)
                        ∨ (∃ err,
                             Standalone.host_ListenAndServe h
                               (":" +:+ pretty (default 8081 http_port)) = Some err
                             ∧ "failed to start HTTP server: " +:+ err ∈ lines)))))
  | (Standalone.serving lis httpAddr, w') =>
      ∃ grpc_port http_port lines,
        Standalone.host_flag_Parse h = Standalone.flags grpc_port http_port
        ∧ Standalone.host_Listen h (":" +:+ pretty (default 50051 grpc_port))
            = inl lis
        ∧ Standalone.host_Serve h = None
        ∧ httpAddr = ":" +:+ pretty (default 8081 http_port)
        ∧ Standalone.host_ListenAndServe h httpAddr = None
        ∧ w' = set_logged (λ l, l ++ lines)
                 (set_statusMap
                    (λ _, <["" := SERVING]> (Standalone.host_NewServer h)) w)
        ∧ lines ≡ₚ ["gRPC server listening at " +:+ lis;
                    "Health toggle server listening at " +:+ httpAddr]
  end.
Proof.
  rewrite Standalone_main_unfold.
  destruct (Standalone.host_flag_Parse h) as [grpc_port http_port|code];
    [|by left].
  destruct (Standalone.host_Listen h (":" +:+ pretty (default 50051 grpc_port)))
    as [lis|e1] eqn:HL.
  2:{ right. split; [done|]. exists grpc_port, http_port.
      split; [done|]. left. by exists e1. }
  startup_outcome lines Hw He. rewrite Hw.
  destruct (up_exit _) as [c|].
  - destruct He as [-> He]. right. split; [done|]. exists grpc_port, http_port.
    split; [done|]. right. exists lines. rewrite HL.
    split_and!; try done. destruct He as [He|He]; [by right|by left].
  - destruct He as (Hs & Hl & Hp). exists grpc_port, http_port, lines.
    split_and!; try done. rewrite Hp. apply perm_swap.
Qed.

(** ** The toggle handler, request after request *)

Lemma Standalone_toggles_Mtls n w :
  Standalone.toggles n w = Mtls.toggles n w.
Proof.
  induction n as [|n IH]; [done|].
  cbn [Standalone.toggles]. rewrite IH, toggles_S.
  destruct (Mtls.toggles n w) as [[bodies w']|]; [|done].
  by change (Standalone.toggle_health w') with (Mtls.toggle_health w').
Qed.

(** From a state with [mu] free, [isHealthy] true and the status of the
    whole service SERVING, [n] toggles in a row are served; the [k]-th
    writes the body for "HEALTHY" when [k] is even and for "UNHEALTHY"
    when it is odd. *)
Lemma toggles_bodies n w0 :
  mu w0 = false → isHealthy w0 = true → statusMap w0 !! "" = Some SERVING →
  ∃ w,
    Mtls.toggles n w0 =
      Some ((λ k, toggle_body (Nat.even k)) <$> reverse (seq 1 n), w)
    ∧ mu w = false
    ∧ isHealthy w = Nat.even n
    ∧ statusMap w !! "" = Some (if Nat.even n then SERVING else NOT_SERVING)
    ∧ tickers w = tickers w0 ∧ sends w = sends w0.
Proof.
  intros Hmu Hh Hst. induction n as [|n (w & Hn & Hm & Hi & Hs & Ht & Hsd)].
  - exists w0. cbn. by rewrite Hst.
  - rewrite toggles_S, Hn, (toggle_health_served w Hm).
    eexists. split.
    + rewrite seq_S, reverse_app, fmap_app. cbn [reverse rev_append app fmap list_fmap].
      rewrite Hi, Nat.even_succ, <- Nat.negb_even. reflexivity.
    + rewrite Nat.even_succ, <- Nat.negb_even. unfold toggled.
      cbn [mu isHealthy statusMap tickers sends].
      rewrite Hi, lookup_insert_eq. done.
Qed.

Lemma Standalone_main_serving h w lis httpAddr w' :
  Standalone.main h w = (Standalone.serving lis httpAddr, w') →
  statusMap w' !! "" = Some SERVING ∧ mu w' = mu w ∧ isHealthy w' = isHealthy w.
Proof.
  rewrite Standalone_main_unfold.
  destruct (Standalone.host_flag_Parse h) as [grpc_port http_port|code];
    [|by intros [=]].
  destruct (Standalone.host_Listen h _) as [lis'|e1]; [|by intros [=]].
  startup_outcome lines Hw He. rewrite Hw.
  destruct (up_exit _) as [c|]; [by intros [=]|].
  intros [= <- <- <-].
  cbn [statusMap mu isHealthy set_logged set_statusMap].
  by rewrite lookup_insert_eq.
Qed.

(** X3. Once [main] of the standalone server serves, any number [n] of
    requests to [/toggle-health], one after the other, are all served.
    The [k]-th of them answers "Health status is now UNHEALTHY" when [k]
    is odd and "Health status is now HEALTHY" when [k] is even, each
    followed by a line feed; afterwards the status of the whole service
    is SERVING when [n] is even and NOT_SERVING when [n] is odd, and
    [mu] is free again. *)
Theorem X3_standalone_toggles_alternate h lis httpAddr w0 n :
  Standalone.main h Standalone.World_init = (Standalone.serving lis httpAddr, w0) →
  ∃ w,
    Standalone.toggles n w0 =
      Some ((λ k, toggle_body (Nat.even k)) <$> reverse (seq 1 n), w)
    ∧ mu w = false
    ∧ isHealthy w = Nat.even n
    ∧ (healthServer_Check "" w).1 =
        inl (if Nat.even n then SERVING else NOT_SERVING).
Proof.
  intros (Hst & Hmu & Hh)%Standalone_main_serving.
  destruct (toggles_bodies n w0 Hmu Hh Hst) as (w & Hn & Hm & Hi & Hs & _).
  exists w. rewrite Standalone_toggles_Mtls, Hn.
  unfold healthServer_Check. cbn. by rewrite Hs.
Qed.

Lemma X3_standalone_toggles_alternate_witness :
  Standalone.main standalone_host Standalone.World_init =
    (Standalone.serving "[::]:50051" ":8081",
     (Standalone.main standalone_host Standalone.World_init).2)
  ∧ ∃ w,
      Standalone.toggles 3 (Standalone.main standalone_host Standalone.World_init).2 =
        Some ((λ k, toggle_body (Nat.even k)) <$> reverse (seq 1 3), w)
      ∧ mu w = false
      ∧ isHealthy w = Nat.even 3
      ∧ (healthServer_Check "" w).1 =
          inl (if Nat.even 3 then SERVING else NOT_SERVING).
Proof.
  split; [reflexivity|].
  apply (X3_standalone_toggles_alternate standalone_host "[::]:50051" ":8081").
  reflexivity.
Defined.

(** X4. The toggle is its own inverse.  Two requests to
    [/toggle-health] served one after the other, from a state in which
    [mu] is free and [isHealthy] agrees with the status of the whole
    service, leave the process state as it was but for the two lines
    they print: [isHealthy], the whole status map (the entries of other
    services included), [mu], the tickers and the sends are as before.
    The first answers the body for the flipped status and the second the
    body for the status from before. *)
Theorem X4_two_toggles_restore w :
  mu w = false → agree w →
  ∃ w1,
    Mtls.toggle_health w = Some (toggle_body (negb (isHealthy w)), w1)
    ∧ Mtls.toggle_health w1 =
        Some (toggle_body (isHealthy w),
              set_logged
                (λ l, l ++ ["Health status toggled to: "
                              +:+ (if isHealthy w then "UNHEALTHY" else "HEALTHY");
                            "Health status toggled to: "
                              +:+ (if isHealthy w then "HEALTHY" else "UNHEALTHY")])
                w).
Proof.
  intros Hmu Hag. exists (toggled w). split.
  - by rewrite (toggle_health_served w Hmu).
  - rewrite (toggle_health_served (toggled w)) by done.
    destruct w as [lg tk sd m h st]. unfold agree in Hag. cbn in *. subst m.
    unfold toggle_body, toggled, set_logged. cbn.
    rewrite negb_involutive, insert_insert_eq, (insert_id st "" _ Hag),
      <- app_assoc.
    by destruct h.
Qed.

Lemma X4_two_toggles_restore_witness :
  (mu World_serving = false ∧ agree World_serving)
  ∧ ∃ w1,
      Mtls.toggle_health World_serving =
        Some (toggle_body (negb (isHealthy World_serving)), w1)
      ∧ Mtls.toggle_health w1 =
          Some (toggle_body (isHealthy World_serving),
                set_logged
                  (λ l, l ++ ["Health status toggled to: "
                                +:+ (if isHealthy World_serving
                                     then "UNHEALTHY" else "HEALTHY");
                              "Health status toggled to: "
                                +:+ (if isHealthy World_serving
                                     then "HEALTHY" else "UNHEALTHY")])
                  World_serving).
Proof.
  assert (agree World_serving) as Hag by reflexivity.
  split; [by split|].
  exact (X4_two_toggles_restore World_serving eq_refl Hag).
Defined.

(** ** The session's log, and the health state next to it *)

Section SessionLog.
Context {Time : Type} (F : Time → string).

Lemma Mtls_run_logged tk evs w :
  logged (Mtls.StreamTime_run F (Select tk) evs w).2 =
    logged w
    ++ ((λ t, "Sent time: " +:+ F t) <$> accepted (ticks (taken evs)))
    ++ exit_line (last (taken evs)).
Proof.
  revert w. induction evs as [|ev evs IH]; intros w.
  - cbn. by rewrite app_nil_r.
  - rewrite last_taken_cons, Mtls_run_cons. destruct ev as [|t [e|]].
    + rewrite Mtls_step_Done, Mtls_run_returned by done. done.
    + rewrite Mtls_step_fail, Mtls_run_returned by done. done.
    + rewrite Mtls_step_sent. cbn [fst snd]. rewrite IH.
      cbn [logged set_logged set_sends taken ticks omap list_omap accepted
           fst snd fmap list_fmap].
      rewrite <- app_assoc. cbn [app]. do 2 f_equal.
      by destruct (last (taken evs)) as [[|t' [e'|]]|].
Qed.

Lemma Mtls_StreamTime_written evs w :
  written (Mtls.StreamTime F evs w).2 =
    written w ++ ((λ t, {| CurrentTime := F t |}) <$> accepted (ticks (taken evs))).
Proof.
  unfold written. rewrite Mtls_StreamTime_unfold, Mtls_enter. cbn [fst snd].
  destruct (Mtls_run_Select F (length (tickers w)) evs
              (set_tickers (λ l, l ++ [{| period := 2 * Second; ticking := true |}])
                 (set_logged (λ l, l ++ ["StreamTime request received"]) w)))
    as (_ & -> & _).
  cbn [sends set_tickers set_logged].
  by rewrite omap_app, written_sends.
Qed.

(** X5. What a call of [StreamTime] prints: first "StreamTime request
    received"; then one line "Sent time: " with the RFC 3339 text for
    each message the transport accepted, in the order of the sends and
    with the very text that was sent; and last, when the call has
    returned, "Client disconnected" after a cancellation or "Error
    sending time: " with the error after a failed send.  A failed send
    gets no "Sent time" line, and nothing is printed for wake-ups after
    the return. *)
Theorem X5_session_log evs w :
  logged (Mtls.StreamTime F evs w).2 =
    logged w
    ++ ["StreamTime request received"]
    ++ ((λ m, "Sent time: " +:+ CurrentTime m)
          <$> drop (length (written w)) (written (Mtls.StreamTime F evs w).2))
    ++ exit_line (last (taken evs)).
Proof.
  rewrite Mtls_StreamTime_written, drop_app_length, <- list_fmap_compose.
  rewrite Mtls_StreamTime_unfold, Mtls_enter. cbn [fst snd].
  rewrite Mtls_run_logged. cbn [logged set_logged set_tickers].
  by rewrite <- !app_assoc.
Qed.

End SessionLog.

Section HealthNextToSession.
Context {Time : Type} (F : Time → string).

Lemma request_step_health r w1 w2 :
  mu w1 = mu w2 → isHealthy w1 = isHealthy w2 → statusMap w1 = statusMap w2 →
  match Mtls.request_step r w1, Mtls.request_step r w2 with
  | Some (r1, w1'), Some (r2, w2') =>
      r1 = r2 ∧ mu w1' = mu w2' ∧ isHealthy w1' = isHealthy w2'
      ∧ statusMap w1' = statusMap w2'
  | None, None => True
  | _, _ => False
  end.
Proof.
  intros Hm Hh Hs. destruct r as [pc|service [reply|]]; cbn; [|done|].
  - destruct pc; cbn; rewrite ?Hm, ?Hh, ?Hs; try done.
    by destruct (mu w2).
  - by rewrite Hs.
Qed.

Lemma Server_step_health_request srv1 srv2 i :
  health_view srv1 = health_view srv2 →
  health_view (Mtls.Server_step F srv1 (Mtls.run_request i))
  = health_view (Mtls.Server_step F srv2 (Mtls.run_request i)).
Proof.
  unfold health_view. intros [= Hr Hm Hh Hs]. cbn [Mtls.Server_step].
  rewrite Hr. destruct (Mtls.requests srv2 !! i) as [r|]; [|by rewrite Hr, Hm, Hh, Hs].
  pose proof (request_step_health r _ _ Hm Hh Hs) as H.
  destruct (Mtls.request_step r (Mtls.world srv1)) as [[r1 w1]|],
    (Mtls.request_step r (Mtls.world srv2)) as [[r2 w2]|]; try done.
  - destruct H as (-> & H1 & H2 & H3). cbn. by rewrite H1, H2, H3.
  - by rewrite Hr, Hm, Hh, Hs.
Qed.

Lemma Server_step_health_wake srv ev :
  health_view (Mtls.Server_step F srv (Mtls.wake ev)) = health_view srv.
Proof.
  unfold health_view. cbn [Mtls.Server_step].
  destruct (Mtls_step_health F (Mtls.stream_call srv) ev (Mtls.world srv))
    as (Hm & Hh & Hs).
  destruct (Mtls.StreamTime_step F (Mtls.stream_call srv) ev (Mtls.world srv))
    as [c w']. cbn in *. by rewrite Hm, Hh, Hs.
Qed.

Lemma Server_run_health sched : ∀ srv1 srv2,
  health_view srv1 = health_view srv2 →
  health_view (Mtls.Server_run F srv1 sched)
  = health_view (Mtls.Server_run F srv2
                   (Mtls.run_request <$> request_steps sched)).
Proof.
  unfold Mtls.Server_run.
  induction sched as [|s sched IH]; intros srv1 srv2 Hv; [done|].
  cbn [foldl]. destruct s as [i|ev].
  - change (request_steps (Mtls.run_request i :: sched))
      with (i :: request_steps sched).
    rewrite fmap_cons. cbn [foldl]. by apply IH, Server_step_health_request.
  - change (request_steps (Mtls.wake ev :: sched)) with (request_steps sched).
    apply IH. by rewrite Server_step_health_wake.
Qed.

Lemma request_steps_fmap (l : list nat) :
  request_steps (Time := Time) (Mtls.run_request <$> l) = l.
Proof. induction l as [|i l IH]; [done|]. cbn. unfold request_steps in IH. by rewrite IH. Qed.

(** X6. A running session changes nothing for the toggles and the health
    checks.  Take two runs of the server that begin with the same
    requests, the same [mu], [isHealthy] and status map, and in which
    the requests take their steps in the same order; the runs may differ
    in the session: where its call stands, its ticker and sends, and
    when and how often it is woken, the other run having perhaps no
    wake-up at all.  Then both runs end with the same requests at the
    same points with the same bodies and replies, and with the same
    [mu], [isHealthy] and status map. *)
Theorem X6_health_independent_of_session srv1 srv2 sched1 sched2 :
  health_view srv1 = health_view srv2 →
  request_steps sched1 = request_steps sched2 →
  health_view (Mtls.Server_run F srv1 sched1)
  = health_view (Mtls.Server_run F srv2 sched2).
Proof.
  intros Hv Hs.
  rewrite (Server_run_health sched1 srv1 srv2 Hv), Hs.
  symmetry. by apply Server_run_health.
Qed.

End HealthNextToSession.

Lemma X6_health_independent_of_session_witness :
  (health_view busy_server
   = health_view
       {| Mtls.world := World_serving;
          Mtls.requests := Mtls.requests busy_server;
          Mtls.stream_call := Return None |}
   ∧ request_steps
       [Mtls.run_request 0; Mtls.wake (ticker_C "2024-05-01T10:00:02Z" None);
        Mtls.run_request 0; Mtls.run_request 1; Mtls.wake ctx_Done;
        Mtls.run_request 0]
     = request_steps (Time := string)
         [Mtls.run_request 0; Mtls.run_request 0; Mtls.run_request 1;
          Mtls.run_request 0])
  ∧ health_view
      (Mtls.Server_run (λ t : string, t) busy_server
         [Mtls.run_request 0; Mtls.wake (ticker_C "2024-05-01T10:00:02Z" None);
          Mtls.run_request 0; Mtls.run_request 1; Mtls.wake ctx_Done;
          Mtls.run_request 0])
    = health_view
        (Mtls.Server_run (λ t : string, t)
           {| Mtls.world := World_serving;
              Mtls.requests := Mtls.requests busy_server;
              Mtls.stream_call := Return None |}
           [Mtls.run_request 0; Mtls.run_request 0; Mtls.run_request 1;
            Mtls.run_request 0]).
Proof.
  split; [split; reflexivity|].
  apply (X6_health_independent_of_session (λ t : string, t)); reflexivity.
Defined.

(** ** Requests served at the same time: progress *)

Section Progress.
Context {Time : Type} (F : Time → string).

Lemma total_cons {A} (f : A → nat) r l : total f (r :: l) = (f r + total f l)%nat.
Proof. reflexivity. Qed.

Lemma total_insert {A} (f : A → nat) l i r r' :
  l !! i = Some r →
  (total f (<[i := r']> l) + f r = total f l + f r')%nat.
Proof.
  revert i. induction l as [|x l IH]; intros i Hi; [done|].
  destruct i as [|i]; cbn in Hi.
  - injection Hi as ->. change (<[0%nat:=r']> (r :: l)) with (r' :: l).
    rewrite !total_cons. lia.
  - change (<[S i:=r']> (x :: l)) with (x :: <[i:=r']> l).
    rewrite !total_cons. specialize (IH i Hi). lia.
Qed.

Lemma total_pos {A} (f : A → nat) l :
  (0 < total f l)%nat → ∃ i r, l !! i = Some r ∧ (0 < f r)%nat.
Proof.
  induction l as [|x l IH]; [cbn; lia|].
  rewrite total_cons. intros H.
  destruct (decide (0 < f x)%nat) as [Hx|Hx].
  - by exists 0%nat, x.
  - destruct IH as (i & r & Hi & Hr); [lia|]. by exists (S i), r.
Qed.

Lemma total_0 {A} (f : A → nat) l : total f l = 0%nat → Forall (λ r, f r = 0%nat) l.
Proof.
  induction l as [|x l IH]; [constructor|].
  rewrite total_cons. intros H. constructor; [lia|apply IH; lia].
Qed.

Lemma crit_count_total l :
  crit_count l = total (λ r, if in_critical r then 1 else 0)%nat l.
Proof.
  induction l as [|x l IH]; [done|].
  rewrite crit_count_cons, total_cons, IH. by destruct (in_critical x).
Qed.

(** A statement run by a request is one statement less to run. *)
Lemma request_step_remaining r w r' w' :
  Mtls.request_step r w = Some (r', w') → remaining r = S (remaining r').
Proof.
  destruct r as [pc|service [reply|]]; cbn; [|done|by intros [= <- <-]].
  destruct pc; cbn; try destruct (mu w); try destruct (isHealthy w);
    by intros [= <- <-].
Qed.

(** How a statement moves [mu] and the critical section: it takes
    [mu], or stays inside, or releases [mu], or has nothing to do with
    it. *)
Lemma request_step_lock r w r' w' :
  Mtls.request_step r w = Some (r', w') →
  (in_critical r = false ∧ in_critical r' = true ∧ mu w = false ∧ mu w' = true)
  ∨ (in_critical r = true ∧ in_critical r' = true ∧ mu w' = mu w)
  ∨ (in_critical r = true ∧ in_critical r' = false ∧ mu w' = false)
  ∨ (in_critical r = false ∧ in_critical r' = false ∧ mu w' = mu w).
Proof.
  destruct r as [pc|service [reply|]]; cbn; [|done|intros [= <- <-]; auto 10].
  destruct pc; cbn; try destruct (mu w) eqn:Hmu; try destruct (isHealthy w);
    intros [= <- <-]; cbn; auto 10.
Qed.

Lemma Server_step_lock srv s : lock_inv srv → lock_inv (Mtls.Server_step F srv s).
Proof.
  unfold lock_inv. intros Hcount. destruct s as [i|ev]; cbn [Mtls.Server_step].
  - destruct (Mtls.requests srv !! i) as [r|] eqn:Hi; [|done].
    destruct (Mtls.request_step r (Mtls.world srv)) as [[r' w']|] eqn:Hstep;
      [|done].
    pose proof (crit_count_insert _ _ _ r' Hi) as Hins.
    cbn [Mtls.world Mtls.requests].
    destruct (request_step_lock _ _ _ _ Hstep)
      as [(Hr & Hr' & Hm & Hm')|[(Hr & Hr' & Hm)|[(Hr & Hr' & Hm)|(Hr & Hr' & Hm)]]];
      rewrite Hr, Hr' in Hins; rewrite ?Hm' , ?Hm; rewrite ?Hm in Hcount;
      destruct (mu (Mtls.world srv)); lia.
  - destruct (Mtls_step_health F (Mtls.stream_call srv) ev (Mtls.world srv))
      as (Hm & _).
    destruct (Mtls.StreamTime_step F (Mtls.stream_call srv) ev (Mtls.world srv))
      as [c w']. cbn in *. by rewrite Hm.
Qed.

Lemma Server_run_lock srv sched :
  lock_inv srv → lock_inv (Mtls.Server_run F srv sched).
Proof.
  unfold Mtls.Server_run. revert srv.
  induction sched as [|s sched IH]; intros srv H; [done|].
  cbn [foldl]. by apply IH, Server_step_lock.
Qed.

(** As long as a request is not finished, some request can run a
    statement. *)
Lemma lock_inv_enabled srv :
  lock_inv srv → (0 < total remaining (Mtls.requests srv))%nat →
  ∃ i r r' w',
    Mtls.requests srv !! i = Some r
    ∧ Mtls.request_step r (Mtls.world srv) = Some (r', w').
Proof.
  unfold lock_inv. intros Hcount Hwork.
  destruct (mu (Mtls.world srv)) eqn:Hmu.
  - (* the request that holds [mu] can go on *)
    rewrite crit_count_total in Hcount.
    destruct (total_pos (λ r, if in_critical r then 1 else 0)%nat
                (Mtls.requests srv)) as (i & r & Hi & Hr);
      [rewrite Hcount; lia|].
    exists i, r. destruct r as [pc|service reply]; [|cbn in Hr; lia].
    destruct pc; cbn in Hr |- *; try lia; eauto.
  - (* [mu] is free: any request that is not finished can run *)
    destruct (total_pos _ _ Hwork) as (i & r & Hi & Hr).
    exists i, r. destruct r as [pc|service [reply|]]; cbn in Hr |- *;
      [|lia|eauto].
    destruct pc; cbn in Hr |- *; rewrite ?Hmu; try lia; eauto.
Qed.

Lemma finished_crit_count l : Forall finished l → crit_count l = 0%nat.
Proof.
  induction 1 as [|x l Hx _ IH]; [done|].
  rewrite crit_count_cons, IH.
  destruct x as [[]|service [reply|]]; done.
Qed.

Lemma Server_step_remaining srv s :
  (total remaining (Mtls.requests (Mtls.Server_step F srv s))
   ≤ total remaining (Mtls.requests srv))%nat.
Proof.
  destruct s as [i|ev]; cbn [Mtls.Server_step].
  - destruct (Mtls.requests srv !! i) as [r|] eqn:Hi; [|done].
    destruct (Mtls.request_step r (Mtls.world srv)) as [[r' w']|] eqn:Hstep;
      [|done].
    pose proof (total_insert remaining _ _ _ r' Hi) as Hins.
    apply request_step_remaining in Hstep. cbn [Mtls.requests]. lia.
  - by destruct (Mtls.StreamTime_step F (Mtls.stream_call srv) ev (Mtls.world srv)).
Qed.

Lemma Server_run_remaining srv sched :
  (total remaining (Mtls.requests (Mtls.Server_run F srv sched))
   ≤ total remaining (Mtls.requests srv))%nat.
Proof.
  unfold Mtls.Server_run. revert srv.
  induction sched as [|s sched IH]; intros srv; [done|].
  cbn [foldl]. etrans; [apply IH|apply Server_step_remaining].
Qed.

Lemma lock_inv_completion n : ∀ srv,
  lock_inv srv → total remaining (Mtls.requests srv) = n →
  ∃ more : list nat,
    length more = n
    ∧ Forall finished
        (Mtls.requests (Mtls.Server_run F srv (Mtls.run_request <$> more)))
    ∧ mu (Mtls.world (Mtls.Server_run F srv (Mtls.run_request <$> more))) = false.
Proof.
  induction n as [|n IH]; intros srv Hlock Hwork.
  - exists []. cbn. split; [done|].
    assert (Forall finished (Mtls.requests srv)) as Hfin by by apply total_0.
    split; [done|]. unfold lock_inv in Hlock.
    rewrite (finished_crit_count _ Hfin) in Hlock.
    by destruct (mu (Mtls.world srv)).
  - destruct (lock_inv_enabled srv Hlock) as (i & r & r' & w' & Hi & Hstep);
      [lia|].
    pose proof (Server_step_lock srv (Mtls.run_request i) Hlock) as Hlock'.
    pose proof (total_insert remaining _ _ _ r' Hi) as Hins.
    pose proof (request_step_remaining _ _ _ _ Hstep) as Hrem.
    destruct (IH (Mtls.Server_step F srv (Mtls.run_request i)) Hlock')
      as (more & Hlen & Hfin & Hmu).
    { cbn [Mtls.Server_step]. rewrite Hi, Hstep. cbn [Mtls.requests]. lia. }
    exists (i :: more). cbn [length]. split; [by rewrite Hlen|]. done.
Qed.

(** X7. The toggle handler cannot deadlock the server.  Start with
    [mu] free and any requests, none of them started, and let the
    scheduler run statements and wake the session in any order.  The
    number of statements the requests have still to run never grows, and
    from the state reached there is a way to go on that finishes every
    request in exactly that number of statements: every toggle request
    is served, every check answered, and [mu] is free at the end. *)
Theorem X7_requests_run_to_completion srv sched :
  Forall not_started (Mtls.requests srv) →
  mu (Mtls.world srv) = false →
  let srv' := Mtls.Server_run F srv sched in
  (total remaining (Mtls.requests srv')
   ≤ total remaining (Mtls.requests srv))%nat
  ∧ ∃ more : list nat,
      length more = total remaining (Mtls.requests srv')
      ∧ Forall finished
          (Mtls.requests (Mtls.Server_run F srv' (Mtls.run_request <$> more)))
      ∧ mu (Mtls.world (Mtls.Server_run F srv' (Mtls.run_request <$> more)))
          = false.
Proof.
  intros Hreq Hmu. cbv zeta. split; [apply Server_run_remaining|].
  apply lock_inv_completion; [|done].
  apply Server_run_lock. unfold lock_inv. by rewrite Hmu, not_started_count.
Qed.

End Progress.

(** The toggle has taken [mu] and flipped [isHealthy], the check has
    been answered in between: five statements are left. *)
Lemma X7_requests_run_to_completion_witness :
  (Forall not_started (Mtls.requests busy_server)
   ∧ mu (Mtls.world busy_server) = false)
  ∧ let srv' :=
      Mtls.Server_run (λ t : string, t) busy_server
        [Mtls.run_request 0; Mtls.run_request 0; Mtls.run_request 1] in
    (total remaining (Mtls.requests srv')
     ≤ total remaining (Mtls.requests busy_server))%nat
    ∧ ∃ more : list nat,
        length more = total remaining (Mtls.requests srv')
        ∧ Forall finished
            (Mtls.requests
               (Mtls.Server_run (λ t : string, t) srv' (Mtls.run_request <$> more)))
        ∧ mu (Mtls.world
                (Mtls.Server_run (λ t : string, t) srv' (Mtls.run_request <$> more)))
            = false.
Proof.
  assert (Forall not_started (Mtls.requests busy_server)) as Hreq
    by (repeat constructor).
  split; [by split|].
  exact (X7_requests_run_to_completion (λ t : string, t) busy_server
           [Mtls.run_request 0; Mtls.run_request 0; Mtls.run_request 1]
           Hreq eq_refl).
Defined.

(** ** Requests served at the same time: what they add up to *)

Section Counting.
Context {Time : Type} (F : Time → string).

(** A statement either is the flip, or leaves [isHealthy] alone. *)
Lemma request_step_flip r w r' w' :
  Mtls.request_step r w = Some (r', w') →
  (flipped r = false ∧ flipped r' = true ∧ isHealthy w' = negb (isHealthy w))
  ∨ (flipped r' = flipped r ∧ isHealthy w' = isHealthy w).
Proof.
  destruct r as [pc|service [reply|]]; cbn; [|done|intros [= <- <-]; auto].
  destruct pc; cbn; try destruct (mu w); intros [= <- <-]; cbn; auto.
  all: destruct (isHealthy w); auto.
Qed.

Lemma Server_step_flips h0 srv s :
  isHealthy (Mtls.world srv)
    = xorb h0 (Nat.odd (count_of flipped (Mtls.requests srv))) →
  isHealthy (Mtls.world (Mtls.Server_step F srv s))
    = xorb h0 (Nat.odd (count_of flipped
                          (Mtls.requests (Mtls.Server_step F srv s)))).
Proof.
  intros H. destruct s as [i|ev]; cbn [Mtls.Server_step].
  - destruct (Mtls.requests srv !! i) as [r|] eqn:Hi; [|done].
    destruct (Mtls.request_step r (Mtls.world srv)) as [[r' w']|] eqn:Hstep;
      [|done].
    pose proof (total_insert (λ r, if flipped r then 1 else 0)%nat _ _ _ r' Hi)
      as Hins.
    cbn [Mtls.world Mtls.requests]. unfold count_of in *.
    destruct (request_step_flip _ _ _ _ Hstep) as [(Hr & Hr' & Hh)|[Hr Hh]].
    + rewrite Hr, Hr' in Hins. rewrite Hh, H.
      replace (total _ (<[i:=r']> (Mtls.requests srv)))
        with (S (total (λ r, if flipped r then 1 else 0)%nat (Mtls.requests srv)))
        by lia.
      rewrite Nat.odd_succ, <- Nat.negb_odd.
      by destruct h0, (Nat.odd _).
    + rewrite Hr in Hins. rewrite Hh, H. do 2 f_equal. lia.
  - destruct (Mtls_step_health F (Mtls.stream_call srv) ev (Mtls.world srv))
      as (_ & Hh & _).
    destruct (Mtls.StreamTime_step F (Mtls.stream_call srv) ev (Mtls.world srv))
      as [c w']. cbn in *. by rewrite Hh.
Qed.

Lemma Server_run_flips h0 srv sched :
  isHealthy (Mtls.world srv)
    = xorb h0 (Nat.odd (count_of flipped (Mtls.requests srv))) →
  isHealthy (Mtls.world (Mtls.Server_run F srv sched))
    = xorb h0 (Nat.odd (count_of flipped
                          (Mtls.requests (Mtls.Server_run F srv sched)))).
Proof.
  unfold Mtls.Server_run. revert srv.
  induction sched as [|s sched IH]; intros srv H; [done|].
  cbn [foldl]. by apply IH, Server_step_flips.
Qed.

Lemma not_started_flipped l :
  Forall not_started l → count_of flipped l = 0%nat.
Proof.
  induction 1 as [|x l Hx _ IH]; [done|].
  unfold count_of in *. rewrite total_cons, IH.
  by destruct x as [[]|service [reply|]].
Qed.

(** Outside the critical section, a request has flipped exactly when it
    is served. *)
Lemma flipped_served l :
  Forall (λ r, in_critical r = false) l →
  count_of flipped l = count_of is_served l.
Proof.
  induction 1 as [|x l Hx _ IH]; [done|].
  unfold count_of in *. rewrite !total_cons, IH.
  by destruct x as [[]|service [reply|]].
Qed.

(** X8. Toggles served at the same time add up like toggles served one
    after the other.  Start with [mu] free, [isHealthy] and the status
    of the whole service in agreement, and any requests, none started;
    run their statements and wake the session in any order.  Then
    [isHealthy] is its first value flipped once for every request that
    has run its flip; and whenever [mu] is free, a [Check] of the whole
    service answers the status of the beginning when the number of
    toggle requests served so far is even, and the other one when it is
    odd. *)
Theorem X8_interleaved_toggles_add_up srv sched :
  Forall not_started (Mtls.requests srv) →
  mu (Mtls.world srv) = false →
  agree (Mtls.world srv) →
  let srv' := Mtls.Server_run F srv sched in
  isHealthy (Mtls.world srv')
    = xorb (isHealthy (Mtls.world srv))
        (Nat.odd (count_of flipped (Mtls.requests srv')))
  ∧ (mu (Mtls.world srv') = false →
     (healthServer_Check "" (Mtls.world srv')).1
       = inl (if xorb (isHealthy (Mtls.world srv))
                   (Nat.odd (count_of is_served (Mtls.requests srv')))
              then SERVING else NOT_SERVING)).
Proof.
  intros Hreq Hmu Hag. cbv zeta.
  assert (isHealthy (Mtls.world (Mtls.Server_run F srv sched))
          = xorb (isHealthy (Mtls.world srv))
              (Nat.odd (count_of flipped
                          (Mtls.requests (Mtls.Server_run F srv sched)))))
    as Hflip.
  { apply Server_run_flips. rewrite not_started_flipped by done.
    by destruct (isHealthy _). }
  split; [done|]. intros Hfree.
  destruct (Server_run_Inv F srv sched (Inv_start srv Hreq Hmu Hag))
    as (Hcount & _ & Hagree & _).
  rewrite Hfree in Hcount. apply crit_count_0, flipped_served in Hcount.
  specialize (Hagree Hfree). unfold agree in Hagree.
  unfold healthServer_Check. cbn [fst]. rewrite Hagree, Hflip, Hcount. done.
Qed.

End Counting.

(** The toggle request runs to its end, the check in between and the
    session woken once: one toggle served, the status flipped once. *)
Lemma X8_interleaved_toggles_add_up_witness :
  (Forall not_started (Mtls.requests busy_server)
   ∧ mu (Mtls.world busy_server) = false
   ∧ agree (Mtls.world busy_server))
  ∧ let srv' :=
      Mtls.Server_run (λ t : string, t) busy_server
        [Mtls.run_request 0; Mtls.run_request 0; Mtls.run_request 1;
         Mtls.wake (ticker_C "2024-05-01T10:00:02Z" None);
         Mtls.run_request 0; Mtls.run_request 0; Mtls.run_request 0;
         Mtls.run_request 0; Mtls.run_request 0] in
    isHealthy (Mtls.world srv')
      = xorb (isHealthy (Mtls.world busy_server))
          (Nat.odd (count_of flipped (Mtls.requests srv')))
    ∧ (mu (Mtls.world srv') = false →
       (healthServer_Check "" (Mtls.world srv')).1
         = inl (if xorb (isHealthy (Mtls.world busy_server))
                     (Nat.odd (count_of is_served (Mtls.requests srv')))
                then SERVING else NOT_SERVING)).
Proof.
  assert (Forall not_started (Mtls.requests busy_server)) as Hreq
    by (repeat constructor).
  assert (agree (Mtls.world busy_server)) as Hag by reflexivity.
  split; [by split_and!|].
  exact (X8_interleaved_toggles_add_up (λ t : string, t) busy_server
           [Mtls.run_request 0; Mtls.run_request 0; Mtls.run_request 1;
            Mtls.wake (ticker_C "2024-05-01T10:00:02Z" None);
            Mtls.run_request 0; Mtls.run_request 0; Mtls.run_request 0;
            Mtls.run_request 0; Mtls.run_request 0]
           Hreq eq_refl Hag).
Defined.

(** ** Requests served at the same time: what each one answers *)

Section Bodies.
Context {Time : Type} (F : Time → string).

Lemma body_ok_isHealthy w w' r :
  isHealthy w' = isHealthy w → body_ok w r → body_ok w' r.
Proof. intros Hh. unfold body_ok. by rewrite Hh. Qed.

Lemma body_ok_outside w w' r :
  in_critical r = false → body_ok w r → body_ok w' r.
Proof. by destruct r as [[]|service reply]. Qed.

(** A statement other than the flip keeps what the request has in hand
    true of the state. *)
Lemma request_step_body r w r' w' :
  Mtls.request_step r w = Some (r', w') →
  r ≠ Mtls.http_toggle at_flip →
  body_ok w r → (in_critical r = true → at_pc w r) →
  isHealthy w' = isHealthy w ∧ body_ok w' r'.
Proof.
  destruct r as [pc|service [reply|]]; cbn; [|done|by intros [= <- <-]].
  destruct pc; cbn; intros Hstep Hne Hb Hat; try done.
  - (* at_Lock *) destruct (mu w); [done|]. by injection Hstep as <- <-.
  - (* at_if *) injection Hstep as <- <-. by destruct (isHealthy w).
  - (* at_SERVING *) injection Hstep as <- <-. cbn. by rewrite Hat.
  - (* at_NOT_SERVING *) injection Hstep as <- <-. cbn. by rewrite Hat.
  - (* at_Printf *) by injection Hstep as <- <-.
  - (* at_Fprintf *) injection Hstep as <- <-. cbn.
    split; [done|]. unfold toggle_body. by rewrite Hb.
  - (* at_Unlock *) injection Hstep as <- <-. cbn.
    split; [done|]. rewrite Hb. destruct (isHealthy w); auto.
Qed.

Lemma Server_step_body srv s :
  Inv srv →
  Forall (body_ok (Mtls.world srv)) (Mtls.requests srv) →
  Forall (body_ok (Mtls.world (Mtls.Server_step F srv s)))
    (Mtls.requests (Mtls.Server_step F srv s)).
Proof.
  intros (Hcount & Hat & _) Hb. destruct s as [i|ev]; cbn [Mtls.Server_step].
  - destruct (Mtls.requests srv !! i) as [r|] eqn:Hi; [|done].
    destruct (Mtls.request_step r (Mtls.world srv)) as [[r' w']|] eqn:Hstep;
      [|done].
    cbn [Mtls.world Mtls.requests].
    assert (r = Mtls.http_toggle at_flip ∨ r ≠ Mtls.http_toggle at_flip)
      as [->|Hne] by (destruct r as [[]|service reply]; auto).
    + (* the flip: no other request is in its critical section *)
      pose proof (crit_count_insert _ _ _ (Mtls.http_toggle at_Lock) Hi) as Hins0.
      cbn in Hstep. injection Hstep as <- <-.
      assert (Forall (λ r, in_critical r = false)
                (<[i := Mtls.http_toggle at_Lock]> (Mtls.requests srv)))
        as Hothers.
      { apply crit_count_0. cbn in Hins0.
        destruct (mu (Mtls.world srv)); lia. }
      rewrite <- (list_insert_insert_eq _ _ _ (Mtls.http_toggle at_Lock)).
      apply Forall_insert; [|done].
      assert (Forall (body_ok (Mtls.world srv))
                (<[i := Mtls.http_toggle at_Lock]> (Mtls.requests srv)))
        as Hb0 by by apply Forall_insert.
      apply Forall_forall. intros o Ho.
      eapply body_ok_outside.
      * by apply (proj1 (Forall_forall _ _) Hothers).
      * by apply (proj1 (Forall_forall _ _) Hb0).
    + destruct (request_step_body _ _ _ _ Hstep Hne) as [Hh Hr'].
      * by apply (Forall_lookup_1 _ _ _ _ Hb Hi).
      * by apply (Forall_lookup_1 _ _ _ _ Hat Hi).
      * apply Forall_insert; [|done].
        eapply Forall_impl; [exact Hb|]. intros o. by apply body_ok_isHealthy.
  - destruct (Mtls_step_health F (Mtls.stream_call srv) ev (Mtls.world srv))
      as (_ & Hh & _).
    destruct (Mtls.StreamTime_step F (Mtls.stream_call srv) ev (Mtls.world srv))
      as [c w']. cbn in *.
    eapply Forall_impl; [exact Hb|]. intros o. by apply body_ok_isHealthy.
Qed.

Lemma Server_run_body sched : ∀ srv,
  Inv srv →
  Forall (body_ok (Mtls.world srv)) (Mtls.requests srv) →
  Forall (body_ok (Mtls.world (Mtls.Server_run F srv sched)))
    (Mtls.requests (Mtls.Server_run F srv sched)).
Proof.
  unfold Mtls.Server_run.
  induction sched as [|s sched IH]; intros srv HI Hb; [done|].
  cbn [foldl]. apply IH; [by apply Server_step_Inv|by apply Server_step_body].
Qed.

(** X9. Every toggle request answers for the flip it made itself,
    however the requests are interleaved.  Start with [mu] free,
    [isHealthy] and the status of the whole service in agreement, and
    any requests, none started.  At any moment, a toggle request that
    has written its body and has still to release [mu] holds the body
    for the present value of [isHealthy], which is also what a [Check]
    of the whole service answers at that moment; and the body of every
    request that is served is "Health status is now HEALTHY" or "Health
    status is now UNHEALTHY" followed by a line feed. *)
Theorem X9_body_names_the_status_set srv sched :
  Forall not_started (Mtls.requests srv) →
  mu (Mtls.world srv) = false →
  agree (Mtls.world srv) →
  let srv' := Mtls.Server_run F srv sched in
  (∀ i body,
     Mtls.requests srv' !! i = Some (Mtls.http_toggle (at_Unlock body)) →
     body = toggle_body (isHealthy (Mtls.world srv'))
     ∧ (healthServer_Check "" (Mtls.world srv')).1
         = inl (if isHealthy (Mtls.world srv') then SERVING else NOT_SERVING))
  ∧ (∀ i body,
       Mtls.requests srv' !! i = Some (Mtls.http_toggle (served body)) →
       body = toggle_body true ∨ body = toggle_body false).
Proof.
  intros Hreq Hmu Hag. cbv zeta.
  pose proof (Server_run_Inv F srv sched (Inv_start srv Hreq Hmu Hag)) as HI.
  assert (Forall (body_ok (Mtls.world (Mtls.Server_run F srv sched)))
            (Mtls.requests (Mtls.Server_run F srv sched))) as Hb.
  { apply Server_run_body; [by apply Inv_start|].
    eapply Forall_impl; [exact Hreq|].
    by intros [[]|service [reply|]]. }
  destruct HI as (_ & Hat & _). split.
  - intros i body Hi. split.
    + by apply (Forall_lookup_1 _ _ _ _ Hb Hi).
    + pose proof (Forall_lookup_1 _ _ _ _ Hat Hi eq_refl) as Hagree.
      unfold healthServer_Check. cbn in *. unfold agree in Hagree.
      by rewrite Hagree.
  - intros i body Hi. by apply (Forall_lookup_1 _ _ _ _ Hb Hi).
Qed.

End Bodies.

(** The toggle request has run all but its [mu.Unlock()]; the check was
    answered before the flip reached the status map. *)
Lemma X9_body_names_the_status_set_witness :
  (Forall not_started (Mtls.requests busy_server)
   ∧ mu (Mtls.world busy_server) = false
   ∧ agree (Mtls.world busy_server))
  ∧ let srv' :=
      Mtls.Server_run (λ t : string, t) busy_server
        [Mtls.run_request 0; Mtls.run_request 0; Mtls.run_request 1;
         Mtls.run_request 0; Mtls.run_request 0; Mtls.run_request 0;
         Mtls.run_request 0] in
    Mtls.requests srv' !! 0%nat
      = Some (Mtls.http_toggle (at_Unlock (toggle_body false)))
    ∧ (∀ i body,
         Mtls.requests srv' !! i = Some (Mtls.http_toggle (at_Unlock body)) →
         body = toggle_body (isHealthy (Mtls.world srv'))
         ∧ (healthServer_Check "" (Mtls.world srv')).1
             = inl (if isHealthy (Mtls.world srv') then SERVING else NOT_SERVING))
    ∧ (∀ i body,
         Mtls.requests srv' !! i = Some (Mtls.http_toggle (served body)) →
         body = toggle_body true ∨ body = toggle_body false).
Proof.
  assert (Forall not_started (Mtls.requests busy_server)) as Hreq
    by (repeat constructor).
  assert (agree (Mtls.world busy_server)) as Hag by reflexivity.
  split; [by split_and!|]. cbv zeta. split; [reflexivity|].
  exact (X9_body_names_the_status_set (λ t : string, t) busy_server
           [Mtls.run_request 0; Mtls.run_request 0; Mtls.run_request 1;
            Mtls.run_request 0; Mtls.run_request 0; Mtls.run_request 0;
            Mtls.run_request 0]
           Hreq eq_refl Hag).
Defined.

(** ** The toggle and the named services *)

Section NamedServices.
Context {Time : Type} (F : Time → string).

Lemma request_step_named r w r' w' service :
  Mtls.request_step r w = Some (r', w') → service ≠ "" →
  statusMap w' !! service = statusMap w !! service.
Proof.
  intros Hstep Hne.
  destruct r as [pc|service' [reply|]]; cbn in Hstep; [|done|by injection Hstep as <- <-].
  destruct pc; cbn in Hstep; try destruct (mu w); try done;
    injection Hstep as <- <-; cbn; by rewrite ?lookup_insert_ne.
Qed.

Lemma Server_step_named w0 srv s :
  (∀ service, service ≠ "" →
     statusMap (Mtls.world srv) !! service = statusMap w0 !! service) →
  Forall (named_reply_ok w0) (Mtls.requests srv) →
  (∀ service, service ≠ "" →
     statusMap (Mtls.world (Mtls.Server_step F srv s)) !! service
       = statusMap w0 !! service)
  ∧ Forall (named_reply_ok w0) (Mtls.requests (Mtls.Server_step F srv s)).
Proof.
  intros Hmap Hrep. destruct s as [i|ev]; cbn [Mtls.Server_step].
  - destruct (Mtls.requests srv !! i) as [r|] eqn:Hi; [|done].
    destruct (Mtls.request_step r (Mtls.world srv)) as [[r' w']|] eqn:Hstep;
      [|done].
    cbn [Mtls.world Mtls.requests]. split.
    + intros service Hne.
      by rewrite (request_step_named _ _ _ _ service Hstep Hne), Hmap.
    + apply Forall_insert; [done|].
      destruct r as [pc|service [reply|]]; cbn in Hstep; [|done|].
      * by destruct (Mtls.handler_step pc (Mtls.world srv)) as [[pc' w'']|];
          [injection Hstep as <- <-|].
      * injection Hstep as <- <-. cbn. intros Hne.
        unfold healthServer_Check. cbn. by rewrite Hmap.
  - destruct (Mtls_step_health F (Mtls.stream_call srv) ev (Mtls.world srv))
      as (_ & _ & Hs).
    destruct (Mtls.StreamTime_step F (Mtls.stream_call srv) ev (Mtls.world srv))
      as [c w']. cbn in *. split; [|done].
    intros service Hne. by rewrite Hs, Hmap.
Qed.

Lemma Server_run_named w0 sched : ∀ srv,
  (∀ service, service ≠ "" →
     statusMap (Mtls.world srv) !! service = statusMap w0 !! service) →
  Forall (named_reply_ok w0) (Mtls.requests srv) →
  (∀ service, service ≠ "" →
     statusMap (Mtls.world (Mtls.Server_run F srv sched)) !! service
       = statusMap w0 !! service)
  ∧ Forall (named_reply_ok w0) (Mtls.requests (Mtls.Server_run F srv sched)).
Proof.
  unfold Mtls.Server_run.
  induction sched as [|s sched IH]; intros srv Hmap Hrep; [done|].
  cbn [foldl].
  destruct (Server_step_named w0 srv s Hmap Hrep) as [Hmap' Hrep'].
  by apply IH.
Qed.

(** X10. The toggle touches the whole-service entry of the status map
    and no other.  For a service name other than the empty one, whatever
    requests run and however they are interleaved, the entry of the
    status map is as it was at the start, and every [Check] of that
    service is answered as it would have been at the start: with the
    status registered for it, or with the status NotFound when none
    is. *)
Theorem X10_named_services_untouched srv sched service :
  Forall not_started (Mtls.requests srv) →
  service ≠ "" →
  let srv' := Mtls.Server_run F srv sched in
  statusMap (Mtls.world srv') !! service = statusMap (Mtls.world srv) !! service
  ∧ ∀ i reply,
      Mtls.requests srv' !! i = Some (Mtls.grpc_Check service (Some reply)) →
      reply = match statusMap (Mtls.world srv) !! service with
              | Some s => inl s
              | None => inr {| code := NotFound; message := "unknown service" |}
              end.
Proof.
  intros Hreq Hne. cbv zeta.
  destruct (Server_run_named (Mtls.world srv) sched srv) as [Hmap Hrep].
  - done.
  - eapply Forall_impl; [exact Hreq|]. by intros [[]|service' [reply|]].
  - split; [by apply Hmap|]. intros i reply Hi.
    by apply (Forall_lookup_1 _ _ _ _ Hrep Hi).
Qed.

End NamedServices.

(** A toggle request served to its end and a check of a service that
    is not registered. *)
Lemma X10_named_services_untouched_witness :
  (Forall not_started
     [Mtls.http_toggle at_Lock; Mtls.grpc_Check "time.TimeService" None]
   ∧ "time.TimeService" ≠ "")
  ∧ let srv' :=
      Mtls.Server_run (λ t : string, t)
        {| Mtls.world := World_serving;
           Mtls.requests :=
             [Mtls.http_toggle at_Lock; Mtls.grpc_Check "time.TimeService" None];
           Mtls.stream_call := Return None |}
        [Mtls.run_request 0; Mtls.run_request 0; Mtls.run_request 0;
         Mtls.run_request 0; Mtls.run_request 1; Mtls.run_request 0;
         Mtls.run_request 0; Mtls.run_request 0] in
    statusMap (Mtls.world srv') !! "time.TimeService"
      = statusMap World_serving !! "time.TimeService"
    ∧ ∀ i reply,
        Mtls.requests srv' !! i
          = Some (Mtls.grpc_Check "time.TimeService" (Some reply)) →
        reply = match statusMap World_serving !! "time.TimeService" with
                | Some s => inl s
                | None => inr {| code := NotFound; message := "unknown service" |}
                end.
Proof.
  assert (Forall not_started
            [Mtls.http_toggle at_Lock; Mtls.grpc_Check "time.TimeService" None])
    as Hreq by (repeat constructor).
  assert ("time.TimeService" ≠ "") as Hne by discriminate.
  split; [by split|].
  exact (X10_named_services_untouched (λ t : string, t)
           {| Mtls.world := World_serving;
              Mtls.requests :=
                [Mtls.http_toggle at_Lock; Mtls.grpc_Check "time.TimeService" None];
              Mtls.stream_call := Return None |}
           [Mtls.run_request 0; Mtls.run_request 0; Mtls.run_request 0;
            Mtls.run_request 0; Mtls.run_request 1; Mtls.run_request 0;
            Mtls.run_request 0; Mtls.run_request 0]
           "time.TimeService" Hreq Hne).
Defined.

(** ** Several sessions at the same time *)

Section Sessions.
Context {Time : Type} (F : Time → string).

(** Where a call goes and what it sends depends on the call and its
    stream, and on nothing else of the state. *)
Lemma Mtls_step_call_sends c ev w1 w2 :
  sends w1 = sends w2 →
  (Mtls.StreamTime_step F c ev w1).1 = (Mtls.StreamTime_step F c ev w2).1
  ∧ sends (Mtls.StreamTime_step F c ev w1).2
    = sends (Mtls.StreamTime_step F c ev w2).2.
Proof.
  intros Hs. destruct c as [tk| |]; [|done..].
  destruct ev as [|t [e|]];
    rewrite ?(Mtls_step_Done _ _ w1), ?(Mtls_step_fail _ _ _ _ w1),
      ?(Mtls_step_sent _ _ _ w1), ?(Mtls_step_Done _ _ w2),
      ?(Mtls_step_fail _ _ _ _ w2), ?(Mtls_step_sent _ _ _ w2);
    cbn; by rewrite ?Hs.
Qed.

Lemma Mtls_run_call_sends c evs : ∀ w1 w2,
  sends w1 = sends w2 →
  (Mtls.StreamTime_run F c evs w1).1 = (Mtls.StreamTime_run F c evs w2).1
  ∧ sends (Mtls.StreamTime_run F c evs w1).2
    = sends (Mtls.StreamTime_run F c evs w2).2.
Proof.
  revert c. induction evs as [|ev evs IH]; intros c w1 w2 Hs; [done|].
  rewrite (Mtls_run_cons F c ev evs w1), (Mtls_run_cons F c ev evs w2).
  destruct (Mtls_step_call_sends c ev w1 w2 Hs) as [-> Hs']. by apply IH.
Qed.

Lemma Sessions_run_cons st s sched :
  Sessions_run F st (s :: sched) = Sessions_run F (Sessions_step F st s) sched.
Proof. reflexivity. Qed.

(** X11. Calls of [StreamTime] that run at the same time do not touch
    one another.  In any schedule of accepted calls and wake-ups, a call
    that is there at the start ends where it would end, and has sent on
    its stream what it would have sent, had it been given its own
    wake-ups alone: cancelling a call, or a send that fails on its
    stream, changes nothing for any other call. *)
Theorem X11_sessions_isolated sched : ∀ ss w k s,
  ss !! k = Some s →
  (Sessions_run F (ss, w) sched).1 !! k =
    Some {| call :=
              (Mtls.StreamTime_run F (call s) (wakes_of k sched)
                 (set_sends (λ _, stream s) w)).1;
            stream :=
              sends (Mtls.StreamTime_run F (call s) (wakes_of k sched)
                       (set_sends (λ _, stream s) w)).2 |}.
Proof.
  induction sched as [|sc sched IH]; intros ss w k s Hk.
  - cbn. by destruct s.
  - rewrite Sessions_run_cons. destruct sc as [|j ev].
    + (* a call is accepted *)
      change (wakes_of k (accept_call :: sched)) with (wakes_of k sched).
      cbn [Sessions_step fst snd]. unfold on_stream.
      destruct (Mtls.StreamTime_enter (set_sends (λ _, []) w)) as [c w1].
      rewrite (IH _ _ k s) by by apply lookup_app_l_Some.
      by destruct (Mtls_run_call_sends (call s) (wakes_of k sched)
                     (set_sends (λ _, stream s) (set_sends (λ _, sends w) w1))
                     (set_sends (λ _, stream s) w) eq_refl) as [-> ->].
    + cbn [Sessions_step fst snd].
      destruct (decide (j = k)) as [->|Hne].
      * (* the call itself wakes up *)
        replace (wakes_of k (wake_call k ev :: sched))
          with (ev :: wakes_of k sched)
          by (unfold wakes_of; cbn; by rewrite decide_True).
        rewrite Hk, Mtls_run_cons. unfold on_stream.
        destruct (Mtls.StreamTime_step F (call s) ev (set_sends (λ _, stream s) w))
          as [c w1] eqn:Hstep.
        rewrite (IH _ _ k {| call := c; stream := sends w1 |}).
        2:{ apply list_lookup_insert_eq. by eapply lookup_lt_Some. }
        cbn [call stream fst snd].
        by destruct (Mtls_run_call_sends c (wakes_of k sched)
                       (set_sends (λ _, sends w1) (set_sends (λ _, sends w) w1))
                       w1 eq_refl) as [-> ->].
      * (* another call wakes up *)
        replace (wakes_of k (wake_call j ev :: sched)) with (wakes_of k sched)
          by (unfold wakes_of; cbn; by rewrite decide_False).
        destruct (ss !! j) as [s'|] eqn:Hj; [|by apply IH].
        unfold on_stream.
        destruct (Mtls.StreamTime_step F (call s') ev (set_sends (λ _, stream s') w))
          as [c w1].
        rewrite (IH _ _ k s) by by rewrite list_lookup_insert_ne.
        by destruct (Mtls_run_call_sends (call s) (wakes_of k sched)
                       (set_sends (λ _, stream s) (set_sends (λ _, sends w) w1))
                       (set_sends (λ _, stream s) w) eq_refl) as [-> ->].
Qed.

End Sessions.

(** The first call is cancelled after one tick; the second one goes on
    ticking. *)
Lemma X11_sessions_isolated_witness :
  two_calls.1 !! 1%nat = Some {| call := Select 1; stream := [] |}
  ∧ (Sessions_run (λ t : string, t) two_calls
       [wake_call 0 (ticker_C "2024-05-01T10:00:02Z" None);
        wake_call 1 (ticker_C "2024-05-01T10:00:03Z" None);
        wake_call 0 ctx_Done;
        wake_call 1 (ticker_C "2024-05-01T10:00:05Z" None)]).1 !! 1%nat =
      Some {| call := Select 1;
              stream := [({| CurrentTime := "2024-05-01T10:00:03Z" |}, None);
                         ({| CurrentTime := "2024-05-01T10:00:05Z" |}, None)] |}.
Proof.
  split; [reflexivity|].
  exact (X11_sessions_isolated (λ t : string, t)
           [wake_call 0 (ticker_C "2024-05-01T10:00:02Z" None);
            wake_call 1 (ticker_C "2024-05-01T10:00:03Z" None);
            wake_call 0 ctx_Done;
            wake_call 1 (ticker_C "2024-05-01T10:00:05Z" None)]
           two_calls.1 two_calls.2 1%nat
           {| call := Select 1; stream := [] |} eq_refl).
Defined.

Section SessionTickers.
Context {Time : Type} (F : Time → string).

Lemma total_app {A} (f : A → nat) l1 l2 :
  total f (l1 ++ l2) = (total f l1 + total f l2)%nat.
Proof.
  induction l1 as [|x l1 IH]; [done|].
  rewrite <- app_comm_cons, !total_cons, IH. lia.
Qed.

Lemma ticking_count_cons t l :
  ticking_count (t :: l) =
    (if ticking t then S (ticking_count l) else ticking_count l).
Proof.
  unfold ticking_count. rewrite filter_cons.
  destruct (ticking t); case_decide; done.
Qed.

Lemma ticking_count_stop l : ∀ tk t,
  l !! tk = Some t → ticking t = true →
  S (ticking_count (alter stopped tk l)) = ticking_count l.
Proof.
  induction l as [|x l IH]; intros tk t Hl Ht; [done|].
  destruct tk as [|tk]; cbn in Hl.
  - injection Hl as ->. change (alter stopped 0%nat (t :: l)) with (stopped t :: l).
    rewrite !ticking_count_cons, Ht. done.
  - change (alter stopped (S tk) (x :: l)) with (x :: alter stopped tk l).
    rewrite !ticking_count_cons. specialize (IH tk t Hl Ht).
    destruct (ticking x); lia.
Qed.

(** A wake-up leaves the tickers alone, unless it makes a waiting call
    return: then it stops the ticker of that call. *)
Lemma Mtls_step_tickers c ev w :
  ((Mtls.StreamTime_step F c ev w).1 = c
   ∧ tickers (Mtls.StreamTime_step F c ev w).2 = tickers w)
  ∨ (∃ tk err,
       c = Select tk
       ∧ (Mtls.StreamTime_step F c ev w).1 = Return err
       ∧ tickers (Mtls.StreamTime_step F c ev w).2
           = alter stopped tk (tickers w)).
Proof.
  destruct c as [tk| |]; [|by left..].
  destruct ev as [|t [e|]].
  - right. rewrite Mtls_step_Done. by eexists _, _.
  - right. rewrite Mtls_step_fail. by eexists _, _.
  - left. by rewrite Mtls_step_sent.
Qed.

End SessionTickers.

Section SessionLeak.
Context {Time : Type} (F : Time → string).

Lemma Sessions_accept_inv base st :
  sessions_inv base st → sessions_inv base (Sessions_step F st accept_call).
Proof.
  destruct st as [ss w]. intros (Hcount & Hheld & Hdist).
  cbn [Sessions_step fst snd] in *. unfold on_stream.
  rewrite Mtls_enter. cbn [fst snd sends tickers set_sends set_tickers set_logged].
  split_and!; cbn [fst snd tickers set_sends set_tickers set_logged].
  - rewrite ticking_count_snoc, total_app, Hcount. cbn. lia.
  - intros k s tk [Hk|[Hk Hs]]%lookup_app_Some Hc.
    + apply lookup_app_l_Some. by eapply Hheld.
    + destruct (k - length ss)%nat; [|done]. injection Hs as <-.
      injection Hc as <-. apply list_lookup_middle. done.
  - intros k k' s s' tk [Hk|[Hk Hs]]%lookup_app_Some
      [Hk'|[Hk' Hs']]%lookup_app_Some Hc Hc'.
    + by eapply Hdist.
    + destruct (k' - length ss)%nat; [|done]. injection Hs' as <-.
      injection Hc' as <-.
      apply (Hheld _ _ _ Hk), lookup_lt_Some in Hc. lia.
    + destruct (k - length ss)%nat; [|done]. injection Hs as <-.
      injection Hc as <-.
      apply (Hheld _ _ _ Hk'), lookup_lt_Some in Hc'. lia.
    + destruct (k - length ss)%nat eqn:E; [|done].
      destruct (k' - length ss)%nat eqn:E'; [|done]. lia.
Qed.

Lemma Sessions_wake_inv base st k ev :
  sessions_inv base st → sessions_inv base (Sessions_step F st (wake_call k ev)).
Proof.
  destruct st as [ss w]. intros (Hcount & Hheld & Hdist).
  cbn [Sessions_step fst snd] in *.
  destruct (ss !! k) as [s|] eqn:Hk; [|done].
  unfold on_stream.
  pose proof (Mtls_step_tickers F (call s) ev (set_sends (λ _, stream s) w))
    as Hstep.
  destruct (Mtls.StreamTime_step F (call s) ev (set_sends (λ _, stream s) w))
    as [c w1].
  cbn [fst snd tickers set_sends] in *.
  pose proof (total_insert running ss k s {| call := c; stream := sends w1 |} Hk)
    as Hins.
  destruct Hstep as [[-> Ht]|(tk & err & Hc & -> & Ht)].
  - (* the call stays where it is, and so do the tickers *)
    assert (∀ k1 s1, <[k:={| call := call s; stream := sends w1 |}]> ss !! k1
                     = Some s1 →
                     ∃ s0, ss !! k1 = Some s0 ∧ call s0 = call s1) as Hback.
    { intros k1 s1 [(-> & <- & _)|[_ H1]]%list_lookup_insert_Some; eauto. }
    split_and!; cbn [fst snd tickers set_sends].
    + rewrite Ht, Hcount. unfold running in Hins |- *. cbn [call] in Hins. lia.
    + intros k1 s1 tk1 (s0 & H0 & Hc0)%Hback Hc1. rewrite Ht.
      eapply Hheld; [exact H0|congruence].
    + intros k1 k2 s1 s2 tk1 (s0 & H0 & Hc0)%Hback (s0' & H0' & Hc0')%Hback
        Hc1 Hc2.
      eapply (Hdist k1 k2 s0 s0' tk1); congruence.
  - (* the call returns, and its ticker is stopped *)
    pose proof (Hheld k s tk Hk Hc) as Htk.
    split_and!; cbn [fst snd tickers set_sends].
    + rewrite Ht.
      pose proof (ticking_count_stop _ _ _ Htk eq_refl) as Hstop.
      assert (running s = 1%nat) as Hrun by (unfold running; by rewrite Hc).
      rewrite Hrun in Hins. cbn [running call] in Hins. lia.
    + intros k1 s1 tk1 [(-> & <- & _)|[Hne H1]]%list_lookup_insert_Some Hc1;
        [done|].
      rewrite Ht, list_lookup_alter_ne; [by eapply Hheld|].
      intros <-. by destruct Hne; eapply (Hdist k k1 s s1 tk).
    + intros k1 k2 s1 s2 tk1
        [(-> & <- & _)|[Hne1 H1]]%list_lookup_insert_Some
        [(-> & <- & _)|[Hne2 H2]]%list_lookup_insert_Some Hc1 Hc2; try done.
      by eapply (Hdist k1 k2 s1 s2 tk1).
Qed.

Lemma Sessions_run_inv base sched : ∀ st,
  sessions_inv base st → sessions_inv base (Sessions_run F st sched).
Proof.
  induction sched as [|s sched IH]; intros st H; [done|].
  rewrite Sessions_run_cons. apply IH.
  destruct s as [|k ev]; [by apply Sessions_accept_inv|by apply Sessions_wake_inv].
Qed.

(** X12. No call of [StreamTime] leaks its ticker, however many calls
    run at the same time.  Let a server accept calls and wake them in
    any order.  Then the number of tickers that are running is the
    number that were running at the start plus one for each call that
    still waits in its [select], so that none is left running for a
    call that has returned; a call that waits holds a running ticker of
    two seconds, and no two calls hold the same one. *)
Theorem X12_one_running_ticker_per_waiting_call sched w :
  let st := Sessions_run F ([], w) sched in
  ticking_count (tickers st.2)
    = (ticking_count (tickers w) + total running st.1)%nat
  ∧ (∀ k s tk,
       st.1 !! k = Some s → call s = Select tk →
       tickers st.2 !! tk = Some {| period := 2 * Second; ticking := true |})
  ∧ (∀ k k' s s' tk,
       st.1 !! k = Some s → st.1 !! k' = Some s' →
       call s = Select tk → call s' = Select tk → k = k').
Proof.
  apply (Sessions_run_inv (ticking_count (tickers w)) sched ([], w)).
  split_and!; [cbn; lia|done..].
Qed.

End SessionLeak.
